(** * NeuraOS window manager: the Desktop registry and the Taskbar view

    A shallow embedding of the window state kept by the [Desktop]
    component (Desktop.tsx: the [windows] array, the [nextZIndex] counter
    and the handlers [openApp], [closeWindow], [minimizeWindow],
    [maximizeWindow], [focusWindow], [updateWindowPosition],
    [updateWindowSize]) and of what the [Taskbar] component (Taskbar.tsx)
    renders from it.  Two hosted applets with state logic of their own
    follow: the tab strip of [Browser] (Browser.tsx) and the history and
    completion keys of the [Terminal] input line (Terminal.tsx).

    Conventions of the embedding.
    - A JavaScript [number] that the handlers compute with (the z-index
      counter, the stagger offset, [Date.now()]) is an integer; it is
      modelled as [Z].  Integer arithmetic on doubles is exact below 2^53,
      far beyond what a counter that starts at 1000 and grows by one per
      command reaches.
    - An array is a [list]; [map], [filter], [find], [some] and the spread
      [[...windows, w]] are [map], [filter], [find], [existsb] and [++].
    - [===] on strings is [String.eqb].
    - A handler is a closure created by a render: it reads the [windows]
      and [nextZIndex] of that render and queues replacements through
      [setWindows] and [setNextZIndex]; the last queued value of each
      wins.  The [Handler] monad below keeps the two apart. *)

From Stdlib Require Import ZArith List String Bool Lia.
From Stdlib Require Import DecimalString DecimalZ.
Import ListNotations.

Local Open Scope Z_scope.
Local Open Scope string_scope.

(** ** Data model (Desktop.tsx, [interface AppWindow]) *)

Record Position : Type := mkPosition { x : Z; y : Z }.

Record Size : Type := mkSize { width : Z; height : Z }.

Record AppWindow : Type := mkAppWindow {
  id : string;
  title : string;
  component : string;
  isMinimized : bool;
  isMaximized : bool;
  position : Position;
  size : Size;
  zIndex : Z
}.

(** Object spreads [{ ...w, field: v }]. *)

Definition with_isMinimized (w : AppWindow) (b : bool) : AppWindow :=
  mkAppWindow (id w) (title w) (component w) b (isMaximized w)
              (position w) (size w) (zIndex w).

Definition with_isMaximized (w : AppWindow) (b : bool) : AppWindow :=
  mkAppWindow (id w) (title w) (component w) (isMinimized w) b
              (position w) (size w) (zIndex w).

Definition with_zIndex (w : AppWindow) (z : Z) : AppWindow :=
  mkAppWindow (id w) (title w) (component w) (isMinimized w) (isMaximized w)
              (position w) (size w) z.

Definition with_position (w : AppWindow) (p : Position) : AppWindow :=
  mkAppWindow (id w) (title w) (component w) (isMinimized w) (isMaximized w)
              p (size w) (zIndex w).

Definition with_size (w : AppWindow) (sz : Size) : AppWindow :=
  mkAppWindow (id w) (title w) (component w) (isMinimized w) (isMaximized w)
              (position w) sz (zIndex w).

(** ** The component state and the handler monad *)

(** The two [useState] cells of [Desktop] that the window handlers use. *)
Record DesktopState : Type := mkDesktop {
  windows : list AppWindow;
  nextZIndex : Z
}.

(** [useState<AppWindow[]>([])] and [useState(1000)]. *)
Definition initialState : DesktopState := mkDesktop [] 1000.

(** What a handler can read: the values captured by the render that
    created it, and the clock. *)
Record Env : Type := mkEnv {
  clock : Z;
  rendered : DesktopState
}.

(** A handler maps the queued state to a result and a new queued state. *)
Definition Handler (A : Type) : Type := Env -> DesktopState -> A * DesktopState.

Definition ret {A : Type} (a : A) : Handler A := fun _ q => (a, q).

Definition bind {A B : Type} (h : Handler A) (k : A -> Handler B) : Handler B :=
  fun e q => let (a, q') := h e q in k a e q'.

Declare Scope handler_scope.
Delimit Scope handler_scope with handler.
Notation "v <- h ;; k" := (bind h (fun v => k))
  (at level 61, h at next level, right associativity) : handler_scope.
Notation "h ;; k" := (bind h (fun _ => k))
  (at level 61, right associativity) : handler_scope.
Local Open Scope handler_scope.

(** Reading the captured [windows] and [nextZIndex]. *)
Definition readWindows : Handler (list AppWindow) :=
  fun e q => (windows (rendered e), q).

Definition readNextZIndex : Handler Z :=
  fun e q => (nextZIndex (rendered e), q).

(** [setWindows(v)] and [setNextZIndex(v)] with a plain value. *)
Definition setWindows (v : list AppWindow) : Handler unit :=
  fun _ q => (tt, mkDesktop v (nextZIndex q)).

Definition setNextZIndex (v : Z) : Handler unit :=
  fun _ q => (tt, mkDesktop (windows q) v).

(** [Date.now()]: the clock reading of the event being handled. *)
Definition Date_now : Handler Z := fun e q => (clock e, q).

(** [n.toString()] for an integer [n]: decimal digits, ["-"] when negative. *)
Definition toString (n : Z) : string := NilZero.string_of_int (Z.to_int n).

(** One event: the handler runs in the closure of the current state, at
    clock reading [t]; the queued state becomes the next state. *)
Definition dispatch {A : Type} (h : Handler A) (t : Z) (s : DesktopState)
  : A * DesktopState := h (mkEnv t s) s.

Definition exec {A : Type} (h : Handler A) (t : Z) (s : DesktopState)
  : DesktopState := snd (dispatch h t s).

Definition returned {A : Type} (h : Handler A) (t : Z) (s : DesktopState)
  : A := fst (dispatch h t s).

(** ** The handlers of Desktop.tsx *)

(** [focusWindow] (lines 84-91). *)
Definition focusWindow (windowId : string) : Handler unit :=
  ws <- readWindows ;;
  z <- readNextZIndex ;;
  setWindows (map (fun w =>
      if id w =? windowId
      then with_isMinimized (with_zIndex w z) false
      else w) ws) ;;
  setNextZIndex (z + 1).

(** [openApp] (lines 39-62).  Both exits are a bare [return]: the call
    evaluates to [undefined], modelled as [None]. *)
Definition openApp (appType title : string) : Handler (option string) :=
  ws <- readWindows ;;
  z <- readNextZIndex ;;
  match find (fun w => component w =? appType) ws with
  | Some existingWindow =>
      focusWindow (id existingWindow) ;;
      ret None
  | None =>
      t <- Date_now ;;
      let newWindow := mkAppWindow
        (toString t)
        title
        appType
        false
        false
        (mkPosition (100 + Z.of_nat (List.length ws) * 30)
                    (100 + Z.of_nat (List.length ws) * 30))
        (mkSize 800 600)
        z in
      setWindows (ws ++ [newWindow]) ;;
      setNextZIndex (z + 1) ;;
      ret None
  end.

(** [closeWindow] (lines 64-66). *)
Definition closeWindow (windowId : string) : Handler unit :=
  ws <- readWindows ;;
  setWindows (filter (fun w => negb (id w =? windowId)) ws).

(** [minimizeWindow] (lines 68-72). *)
Definition minimizeWindow (windowId : string) : Handler unit :=
  ws <- readWindows ;;
  setWindows (map (fun w =>
      if id w =? windowId then with_isMinimized w true else w) ws).

(** [maximizeWindow] (lines 74-82). *)
Definition maximizeWindow (windowId : string) : Handler unit :=
  ws <- readWindows ;;
  setWindows (map (fun w =>
      if id w =? windowId
      then with_isMinimized (with_isMaximized w (negb (isMaximized w))) false
      else w) ws).

(** [updateWindowPosition] (lines 93-97). *)
Definition updateWindowPosition (windowId : string) (p : Position)
  : Handler unit :=
  ws <- readWindows ;;
  setWindows (map (fun w =>
      if id w =? windowId then with_position w p else w) ws).

(** [updateWindowSize] (lines 99-103). *)
Definition updateWindowSize (windowId : string) (sz : Size) : Handler unit :=
  ws <- readWindows ;;
  setWindows (map (fun w =>
      if id w =? windowId then with_size w sz else w) ws).

(** ** The commands and the reachable states *)

(** The user gestures that reach the handlers: desktop icons and the
    quick-launch bar call [openApp]; the window chrome calls the others. *)
Inductive Command : Type :=
| Open (appType title : string)
| Close (windowId : string)
| Minimize (windowId : string)
| Maximize (windowId : string)
| Focus (windowId : string)
| Move (windowId : string) (p : Position)
| Resize (windowId : string) (sz : Size).

Definition handler (c : Command) : Handler unit :=
  match c with
  | Open appType title => openApp appType title ;; ret tt
  | Close windowId => closeWindow windowId
  | Minimize windowId => minimizeWindow windowId
  | Maximize windowId => maximizeWindow windowId
  | Focus windowId => focusWindow windowId
  | Move windowId p => updateWindowPosition windowId p
  | Resize windowId sz => updateWindowSize windowId sz
  end.

(** One command handled at clock reading [t]. *)
Definition step (t : Z) (c : Command) (s : DesktopState) : DesktopState :=
  exec (handler c) t s.

(** A session: the commands in order, each with its clock reading. *)
Definition run (evs : list (Z * Command)) (s : DesktopState) : DesktopState :=
  fold_left (fun st ev => step (fst ev) (snd ev) st) evs s.

Inductive reachable : DesktopState -> Prop :=
| reachable_init : reachable initialState
| reachable_step (t : Z) (c : Command) (s : DesktopState) :
    reachable s -> reachable (step t c s).

(** ** The taskbar (Taskbar.tsx, kept after the README text in
    src/README.md) *)

Module TaskbarTsx.

(** [interface TaskbarProps]; the callbacks are declared [=> void], and
    what [Desktop] passes for them are [focusWindow] and [openApp]. *)
Record TaskbarProps : Type := mkTaskbarProps {
  windows : list AppWindow;
  onWindowClick : string -> Handler unit;
  onAppOpen : string -> string -> Handler (option string)
}.

Record QuickLaunchApp : Type := mkQuickLaunchApp {
  app_component : string;
  app_title : string
}.

Definition quickLaunchApps : list QuickLaunchApp :=
  [ mkQuickLaunchApp "FileManager" "File Manager";
    mkQuickLaunchApp "CodeEditor" "Code Editor";
    mkQuickLaunchApp "AIAssistant" "AI Assistant";
    mkQuickLaunchApp "Terminal" "Terminal" ].

(** A quick-launch [<button>]: its [key], its [onClick], whether it gets
    the highlighted class ([isOpen]), and its [title]. *)
Record QuickLaunchButton : Type := mkQuickLaunchButton {
  ql_key : string;
  ql_onClick : Handler (option string);
  ql_isOpen : bool;
  ql_title : string
}.

(** An open-window [<button>]: its [key], its [onClick], its [title]. *)
Record WindowButton : Type := mkWindowButton {
  wb_key : string;
  wb_onClick : Handler unit;
  wb_title : string
}.

Record TaskbarView : Type := mkTaskbarView {
  quickLaunch : list QuickLaunchButton;
  openWindows : list WindowButton
}.

(** The two [map]s of the returned JSX. *)
Definition Taskbar (props : TaskbarProps) : TaskbarView :=
  mkTaskbarView
    (map (fun app =>
        let isOpen :=
          existsb (fun w => component w =? app_component app)
                  (windows props) in
        mkQuickLaunchButton
          (app_component app)
          (onAppOpen props (app_component app) (app_title app))
          isOpen
          (app_title app))
      quickLaunchApps)
    (map (fun window =>
        mkWindowButton
          (id window)
          (onWindowClick props (id window))
          (title window))
      (filter (fun w => negb (isMinimized w)) (windows props))).

End TaskbarTsx.

(** The [<Taskbar>] element of [Desktop]'s JSX (lines 171-175). *)
Definition Desktop_Taskbar (s : DesktopState) : TaskbarTsx.TaskbarView :=
  TaskbarTsx.Taskbar
    (TaskbarTsx.mkTaskbarProps (windows s) focusWindow openApp).

(** Tailwind classes of the chrome: [z-10] on the icon grid and the
    system-info card (Desktop.tsx), [z-50] on the taskbar (Taskbar.tsx). *)
Definition desktop_icons_z : Z := 10.
Definition taskbar_z : Z := 50.

(** ** Invariants and sessions used in the statements *)

(** Every window's zIndex was handed out by the counter: it lies between
    the seed and the counter's current value. *)
Definition z_bounded (s : DesktopState) : Prop :=
  1000 <= nextZIndex s
  /\ Forall (fun w => 1000 <= zIndex w < nextZIndex s) (windows s).

(** At most one window per application type. *)
Definition one_per_component (s : DesktopState) : Prop :=
  NoDup (map component (windows s)).

(** Two windows have the same zIndex only if they have the same id. *)
Definition z_shared_by_id_only (s : DesktopState) : Prop :=
  forall w w', In w (windows s) -> In w' (windows s) ->
               zIndex w = zIndex w' -> id w = id w'.

(** The clock reading of an event that creates a window prints to a
    string that no window of the state has as id. *)
Definition fresh_clock (t : Z) (c : Command) (s : DesktopState) : Prop :=
  match c with
  | Open appType _ =>
      find (fun w => component w =? appType) (windows s) = None ->
      ~ In (toString t) (map id (windows s))
  | _ => True
  end.

(** Two launches handled at the same clock reading. *)
Definition same_reading_session : list (Z * Command) :=
  [ (1700000000000, Open "NotesApp" "Notes");
    (1700000000000, Open "Terminal" "Terminal") ].

(** A launch, a close and another launch at one clock reading. *)
Definition reuse_session : list (Z * Command) :=
  [ (1700000000000, Open "NotesApp" "Notes");
    (1700000000000, Close "1700000000000");
    (1700000000000, Open "Terminal" "Terminal") ].

(** Notes opened at reading 7, Terminal at reading 8, Notes minimized. *)
Definition demo_session : list (Z * Command) :=
  [ (7, Open "NotesApp" "Notes");
    (8, Open "Terminal" "Terminal");
    (9, Minimize "7") ].

Definition demo_state : DesktopState := run demo_session initialState.

(** ** The launchers: desktop icons and icon lookup *)

(** The lucide-react icons that Desktop.tsx and Taskbar.tsx import and
    use for applications. *)
Inductive LucideIcon : Type :=
| Folder | FileText | Code | Brain | Calendar | Settings | Terminal | Monitor.

Module DesktopTsx.

(** An entry of [desktopApps] (Desktop.tsx, lines 105-114). *)
Record DesktopApp : Type := mkDesktopApp {
  da_id : string;
  da_title : string;
  da_icon : LucideIcon;
  da_component : string
}.

Definition desktopApps : list DesktopApp :=
  [ mkDesktopApp "file-manager" "File Manager" Folder "FileManager";
    mkDesktopApp "notes" "Notes" FileText "NotesApp";
    mkDesktopApp "code-editor" "Code Editor" Code "CodeEditor";
    mkDesktopApp "ai-assistant" "AI Assistant" Brain "AIAssistant";
    mkDesktopApp "calendar" "Calendar" Calendar "Calendar";
    mkDesktopApp "terminal" "Terminal" Terminal "Terminal";
    mkDesktopApp "settings" "Settings" Settings "Settings";
    mkDesktopApp "browser" "Browser" Monitor "Browser" ].

(** What a [<DesktopIcon>] (DesktopIcon.tsx) shows and does: the icon, the
    title, the [onClick] of its [<div>] and the [animationDelay] style
    [`${delay}ms`]. *)
Record DesktopIconView : Type := mkDesktopIconView {
  di_key : string;
  di_icon : LucideIcon;
  di_title : string;
  di_onClick : Handler (option string);
  di_animationDelay : string
}.

(** [desktopApps.map((app, index) => <DesktopIcon ... />)]
    (Desktop.tsx, lines 127-135). *)
Definition DesktopIcons : list DesktopIconView :=
  map (fun ia : nat * DesktopApp =>
      let (index, app) := ia in
      mkDesktopIconView
        (da_id app)
        (da_icon app)
        (da_title app)
        (openApp (da_component app) (da_title app))
        (toString (Z.of_nat index * 100) ++ "ms"))
    (combine (seq 0 (List.length desktopApps)) desktopApps).

End DesktopTsx.

(** The own keys of the [icons] object of [getAppIcon] (Taskbar.tsx). *)
Definition icons : list (string * LucideIcon) :=
  [ ("FileManager", Folder);
    ("NotesApp", FileText);
    ("CodeEditor", Code);
    ("AIAssistant", Brain);
    ("Calendar", Calendar);
    ("Terminal", Terminal);
    ("Settings", Settings);
    ("Browser", Monitor) ].

(** [icons] is an object literal, so a key it does not own is looked up
    on [Object.prototype]; these are the names that object has, each bound
    to a function or object, hence truthy. *)
Definition Object_prototype_names : list string :=
  [ "constructor"; "__defineGetter__"; "__defineSetter__"; "hasOwnProperty";
    "__lookupGetter__"; "__lookupSetter__"; "isPrototypeOf";
    "propertyIsEnumerable"; "toString"; "valueOf"; "__proto__";
    "toLocaleString" ].

(** What [icons[component] || FileText] evaluates to. *)
Inductive IconLookup : Type :=
| IconComponent (i : LucideIcon)
| ObjectPrototypeMember (name : string).

Fixpoint ownProperty (o : list (string * LucideIcon)) (key : string)
  : option LucideIcon :=
  match o with
  | [] => None
  | (k, v) :: o' => if k =? key then Some v else ownProperty o' key
  end.

(** [getAppIcon] (Taskbar.tsx). *)
Definition getAppIcon (component : string) : IconLookup :=
  match ownProperty icons component with
  | Some i => IconComponent i
  | None =>
      if existsb (fun n => n =? component) Object_prototype_names
      then ObjectPrototypeMember component
      else IconComponent FileText
  end.

(** ** The events of the rendered page *)

(** The callbacks [Desktop] hands to [<WindowManager>] (lines 160-168). *)
Inductive WindowManagerCall : Type :=
| OnClose (windowId : string)
| OnMinimize (windowId : string)
| OnMaximize (windowId : string)
| OnFocus (windowId : string)
| OnUpdatePosition (windowId : string) (p : Position)
| OnUpdateSize (windowId : string) (sz : Size).

Definition windowManagerProp (c : WindowManagerCall) : Handler unit :=
  match c with
  | OnClose windowId => closeWindow windowId
  | OnMinimize windowId => minimizeWindow windowId
  | OnMaximize windowId => maximizeWindow windowId
  | OnFocus windowId => focusWindow windowId
  | OnUpdatePosition windowId p => updateWindowPosition windowId p
  | OnUpdateSize windowId sz => updateWindowSize windowId sz
  end.

(** What the user can trigger on the rendered page: a click on the
    [index]-th desktop icon, quick-launch button or open-window button,
    or a callback from the window manager. *)
Inductive UiEvent : Type :=
| ClickDesktopIcon (index : nat)
| ClickQuickLaunch (index : nat)
| ClickOpenWindow (index : nat)
| FromWindowManager (c : WindowManagerCall).

(** The handler that the page rendered from [s] has attached there; a
    click outside the rendered buttons does nothing. *)
Definition uiHandler (s : DesktopState) (e : UiEvent) : Handler unit :=
  match e with
  | ClickDesktopIcon index =>
      match nth_error DesktopTsx.DesktopIcons index with
      | Some icon => DesktopTsx.di_onClick icon ;; ret tt
      | None => ret tt
      end
  | ClickQuickLaunch index =>
      match nth_error (TaskbarTsx.quickLaunch (Desktop_Taskbar s)) index with
      | Some button => TaskbarTsx.ql_onClick button ;; ret tt
      | None => ret tt
      end
  | ClickOpenWindow index =>
      match nth_error (TaskbarTsx.openWindows (Desktop_Taskbar s)) index with
      | Some button => TaskbarTsx.wb_onClick button
      | None => ret tt
      end
  | FromWindowManager c => windowManagerProp c
  end.

Definition uiStep (t : Z) (e : UiEvent) (s : DesktopState) : DesktopState :=
  exec (uiHandler s e) t s.

Inductive uiReachable : DesktopState -> Prop :=
| uiReachable_init : uiReachable initialState
| uiReachable_step (t : Z) (e : UiEvent) (s : DesktopState) :
    uiReachable s -> uiReachable (uiStep t e s).

(** The commands that take a value from the z-index counter. *)
Definition allocates (c : Command) : bool :=
  match c with
  | Open _ _ | Focus _ => true
  | _ => false
  end.

(** A session of launches only. *)
Definition launches (apps : list (Z * (string * string)))
  : list (Z * Command) :=
  map (fun l => (fst l, Open (fst (snd l)) (snd (snd l)))) apps.

(** Two clicks on the rendered page: the Notes desktop icon at reading 7,
    then the Terminal quick-launch button at reading 8. *)
Definition ui_demo_state : DesktopState :=
  uiStep 8 (ClickQuickLaunch 3) (uiStep 7 (ClickDesktopIcon 1) initialState).

(** Three launches of distinct types. *)
Definition demo_launches : list (Z * (string * string)) :=
  [ (7, ("NotesApp", "Notes"));
    (8, ("Terminal", "Terminal"));
    (9, ("Browser", "Browser")) ].

(** ** Browser tabs (Browser.tsx) *)

Module BrowserTsx.

(** [interface BrowserTab]. *)
Record BrowserTab : Type := mkBrowserTab {
  id : string;
  url : string;
  title : string;
  isActive : bool
}.

(** The [tabs] and [addressBar] cells of [Browser]. *)
Record BrowserState : Type := mkBrowser {
  tabs : list BrowserTab;
  addressBar : string
}.

Definition initialState : BrowserState :=
  mkBrowser
    [mkBrowserTab "1" "https://lovable.dev" "Lovable - AI Web Development"
                  true]
    "https://lovable.dev".

(** The handlers take the state captured by their closure ([rendered],
    read where the source reads [tabs]) and the queued state ([queued],
    what an updater [prev => ...] receives), and give the new queued
    state. *)

(** [addNewTab] (lines 26-39), at clock reading [now]. *)
Definition addNewTab (now : Z) (rendered queued : BrowserState)
  : BrowserState :=
  let newTab := mkBrowserTab (toString now) "about:blank" "New Tab" true in
  mkBrowser
    (map (fun tab => mkBrowserTab (id tab) (url tab) (title tab) false)
         (tabs queued) ++ [newTab])
    "".

(** [switchTab] (lines 41-50). *)
Definition switchTab (tabId : string) (rendered queued : BrowserState)
  : BrowserState :=
  let tabs' :=
    map (fun tab => mkBrowserTab (id tab) (url tab) (title tab)
                                 (id tab =? tabId))
        (tabs queued) in
  match find (fun t => id t =? tabId) (tabs rendered) with
  | Some tab => mkBrowser tabs' (url tab)
  | None => mkBrowser tabs' (addressBar queued)
  end.

(** [closeTab] (lines 52-64).  [?.isActive] of a tab that is not found is
    [undefined], which the [if] treats as false; [newTabs[0].isActive =
    true] writes the flag of the first remaining tab. *)
Definition closeTab (tabId : string) (rendered queued : BrowserState)
  : BrowserState :=
  if (List.length (tabs rendered) =? 1)%nat then queued
  else
    let closingActiveTab :=
      match find (fun tab => id tab =? tabId) (tabs rendered) with
      | Some tab => isActive tab
      | None => false
      end in
    let newTabs := filter (fun tab => negb (id tab =? tabId)) (tabs queued) in
    if closingActiveTab && (0 <? List.length newTabs)%nat
    then
      match newTabs with
      | first :: rest =>
          mkBrowser
            (mkBrowserTab (id first) (url first) (title first) true :: rest)
            (url first)
      | [] => mkBrowser newTabs (addressBar queued)
      end
    else mkBrowser newTabs (addressBar queued).

(** One event: the closure is that of the current state. *)
Definition dispatch (h : BrowserState -> BrowserState -> BrowserState)
           (s : BrowserState) : BrowserState := h s s.

(** How many tabs are marked active. *)
Definition activeCount (ts : list BrowserTab) : nat :=
  List.length (filter isActive ts).

(** [tabs.find(tab => tab.isActive)]: the tab whose page is shown. *)
Definition activeTab (s : BrowserState) : option BrowserTab :=
  find isActive (tabs s).

(** A second tab opened at reading 42 from the initial state. *)
Definition two_tabs : BrowserState := dispatch (addNewTab 42) initialState.

End BrowserTsx.

(** ** Terminal input line (Terminal.tsx) *)

Module TerminalTsx.

(** The [currentCommand], [commandHistory] and [historyIndex] cells.
    [currentCommand] is [None] when it holds [undefined], which is what
    indexing an array out of range gives. *)
Record InputState : Type := mkInput {
  currentCommand : option string;
  commandHistory : list string;
  historyIndex : Z
}.

(** [useState('')], [useState<string[]>([])], [useState(-1)]. *)
Definition initialInput : InputState := mkInput (Some "") [] (-1).

(** [a[i]] for an integer [i]. *)
Definition at_index (a : list string) (i : Z) : option string :=
  if (i <? 0)%Z then None else nth_error a (Z.to_nat i).

(** The [ArrowUp] branch of [handleKeyDown] (lines 205-211). *)
Definition arrowUp (s : InputState) : InputState :=
  if (historyIndex s <? Z.of_nat (List.length (commandHistory s)) - 1)%Z
  then
    let newIndex := historyIndex s + 1 in
    mkInput
      (at_index (commandHistory s)
                (Z.of_nat (List.length (commandHistory s)) - 1 - newIndex))
      (commandHistory s)
      newIndex
  else s.

(** The [ArrowDown] branch (lines 212-221). *)
Definition arrowDown (s : InputState) : InputState :=
  if (0 <? historyIndex s)%Z
  then
    let newIndex := historyIndex s - 1 in
    mkInput
      (at_index (commandHistory s)
                (Z.of_nat (List.length (commandHistory s)) - 1 - newIndex))
      (commandHistory s)
      newIndex
  else if (historyIndex s =? 0)%Z
  then mkInput (Some "") (commandHistory s) (-1)
  else s.

(** The completion candidates of the [Tab] branch. *)
Definition commands : list string :=
  [ "help"; "clear"; "ls"; "pwd"; "whoami"; "date"; "neuraos"; "/ask " ].

(** [cmd.startsWith(currentCommand)]; an [undefined] argument is
    converted to the string ["undefined"]. *)
Definition startsWith (cmd : string) (searchString : option string) : bool :=
  match searchString with
  | Some p => String.prefix p cmd
  | None => String.prefix "undefined" cmd
  end.

(** The [Tab] branch (lines 222-229). *)
Definition tabKey (s : InputState) : InputState :=
  let matches :=
    filter (fun cmd => startsWith cmd (currentCommand s)) commands in
  if (List.length matches =? 1)%nat
  then mkInput (nth_error matches 0) (commandHistory s) (historyIndex s)
  else s.

(** The history index points at an entry or is the prompt's [-1]. *)
Definition index_in_range (s : InputState) : Prop :=
  -1 <= historyIndex s < Z.of_nat (List.length (commandHistory s)).

(** Three commands run, nothing recalled, ["ec"] typed. *)
Definition demo_input : InputState :=
  mkInput (Some "ec") ["ls"; "pwd"; "date"] (-1).

End TerminalTsx.

(** * Properties *)

(** ** What one event does to the state *)

Section Equations.

Variables (t : Z) (s : DesktopState).

Lemma exec_focusWindow (windowId : string) :
  exec (focusWindow windowId) t s =
  mkDesktop
    (map (fun w => if id w =? windowId
                   then with_isMinimized (with_zIndex w (nextZIndex s)) false
                   else w) (windows s))
    (nextZIndex s + 1).
Proof. reflexivity. Qed.

Lemma exec_closeWindow (windowId : string) :
  exec (closeWindow windowId) t s =
  mkDesktop (filter (fun w => negb (id w =? windowId)) (windows s))
            (nextZIndex s).
Proof. reflexivity. Qed.

Lemma exec_minimizeWindow (windowId : string) :
  exec (minimizeWindow windowId) t s =
  mkDesktop
    (map (fun w => if id w =? windowId then with_isMinimized w true else w)
         (windows s))
    (nextZIndex s).
Proof. reflexivity. Qed.

Lemma exec_maximizeWindow (windowId : string) :
  exec (maximizeWindow windowId) t s =
  mkDesktop
    (map (fun w =>
        if id w =? windowId
        then with_isMinimized
               (with_isMaximized w (negb (isMaximized w))) false
        else w) (windows s))
    (nextZIndex s).
Proof. reflexivity. Qed.

Lemma exec_updateWindowPosition (windowId : string) (p : Position) :
  exec (updateWindowPosition windowId p) t s =
  mkDesktop
    (map (fun w => if id w =? windowId then with_position w p else w)
         (windows s))
    (nextZIndex s).
Proof. reflexivity. Qed.

Lemma exec_updateWindowSize (windowId : string) (sz : Size) :
  exec (updateWindowSize windowId sz) t s =
  mkDesktop
    (map (fun w => if id w =? windowId then with_size w sz else w)
         (windows s))
    (nextZIndex s).
Proof. reflexivity. Qed.

Lemma exec_openApp_existing (appType title : string) (w : AppWindow) :
  find (fun w => component w =? appType) (windows s) = Some w ->
  exec (openApp appType title) t s = exec (focusWindow (id w)) t s.
Proof.
  intros Hfind. unfold exec, dispatch, openApp, bind, readWindows,
    readNextZIndex; simpl. rewrite Hfind. reflexivity.
Qed.

Lemma exec_openApp_new (appType title : string) :
  find (fun w => component w =? appType) (windows s) = None ->
  exec (openApp appType title) t s =
  mkDesktop
    (windows s ++
     [mkAppWindow (toString t) title appType false false
        (mkPosition (100 + Z.of_nat (List.length (windows s)) * 30)
                    (100 + Z.of_nat (List.length (windows s)) * 30))
        (mkSize 800 600) (nextZIndex s)])
    (nextZIndex s + 1).
Proof.
  intros Hfind. unfold exec, dispatch, openApp, bind, readWindows,
    readNextZIndex; simpl. rewrite Hfind. reflexivity.
Qed.

Lemma returned_openApp (appType title : string) :
  returned (openApp appType title) t s = None.
Proof.
  unfold returned, dispatch, openApp, bind, readWindows, readNextZIndex;
    simpl.
  destruct (find _ (windows s)); reflexivity.
Qed.

Lemma step_Open (appType title : string) :
  step t (Open appType title) s = exec (openApp appType title) t s.
Proof.
  unfold step, exec, dispatch, handler, bind.
  destruct (openApp appType title (mkEnv t s) s); reflexivity.
Qed.

End Equations.

(** ** List facts used below *)

Section ListFacts.

Context {A : Type}.

Lemma filter_idempotent (f : A -> bool) (l : list A) :
  filter f (filter f l) = filter f l.
Proof.
  induction l as [|a l IH]; simpl; [reflexivity|].
  destruct (f a) eqn:Ha; simpl; [rewrite Ha, IH|]; auto.
Qed.

Lemma filter_all_kept (f : A -> bool) (l : list A) :
  (forall a, In a l -> f a = true) -> filter f l = l.
Proof.
  induction l as [|a l IH]; simpl; intros H; [reflexivity|].
  rewrite (H a (or_introl eq_refl)). f_equal. apply IH. auto.
Qed.

Lemma map_unchanged (f : A -> A) (l : list A) :
  (forall a, In a l -> f a = a) -> map f l = l.
Proof.
  induction l as [|a l IH]; simpl; intros H; [reflexivity|].
  rewrite (H a (or_introl eq_refl)). f_equal. apply IH. auto.
Qed.

Lemma map_preserves {B : Type} (g : A -> B) (f : A -> A) (l : list A) :
  (forall a, g (f a) = g a) -> map g (map f l) = map g l.
Proof.
  intros H. rewrite map_map. apply map_ext. exact H.
Qed.

End ListFacts.

(** The conditional update [w.id === windowId ? f(w) : w] under a
    projection that [f] leaves alone. *)
Lemma map_update_preserves {B : Type} (g : AppWindow -> B)
      (f : AppWindow -> AppWindow) (windowId : string) (ws : list AppWindow) :
  (forall w, g (f w) = g w) ->
  map g (map (fun w => if id w =? windowId then f w else w) ws) = map g ws.
Proof.
  intros H. apply map_preserves. intros w.
  destruct (id w =? windowId); auto.
Qed.

(** * Closing *)

(** C6: closing the same id twice gives the same state as closing it once,
    and closing an id that no window has leaves the state as it was; the
    handler is a total function, so neither call can raise. *)
Theorem closeWindow_idempotent (s : DesktopState) (windowId : string)
        (t1 t2 : Z) :
  exec (closeWindow windowId) t2 (exec (closeWindow windowId) t1 s)
    = exec (closeWindow windowId) t1 s
  /\ ((forall w, In w (windows s) -> id w <> windowId) ->
      exec (closeWindow windowId) t1 s = s).
Proof.
  split.
  - rewrite !exec_closeWindow; simpl. now rewrite filter_idempotent.
  - intros Hstale. rewrite exec_closeWindow.
    rewrite filter_all_kept; [now destruct s|].
    intros w Hw. apply negb_true_iff, String.eqb_neq. auto.
Qed.

(** * Maximizing *)

(** C7: two maximize calls in a row leave every window's stored position
    and size (and its id and isMaximized flag) as they were before. *)
Theorem maximize_twice_restores (s : DesktopState) (windowId : string)
        (t1 t2 : Z) :
  let s2 := exec (maximizeWindow windowId) t2
                 (exec (maximizeWindow windowId) t1 s) in
  map position (windows s2) = map position (windows s)
  /\ map size (windows s2) = map size (windows s)
  /\ map id (windows s2) = map id (windows s)
  /\ map isMaximized (windows s2) = map isMaximized (windows s).
Proof.
  cbv zeta. rewrite !exec_maximizeWindow; simpl.
  repeat split.
  - now rewrite !map_update_preserves.
  - now rewrite !map_update_preserves.
  - now rewrite !map_update_preserves.
  - rewrite !map_map. apply map_ext. intros w.
    destruct (id w =? windowId) eqn:E; simpl; rewrite ?E; simpl;
      [apply negb_involutive | reflexivity].
Qed.

(** * Minimizing *)

(** X27: after minimize(id) every window with that id is minimized and
    keeps its zIndex, position, size, id, title, component and isMaximized;
    every window with another id, the number of windows and the counter
    are unchanged. *)
Theorem minimizeWindow_frame (s : DesktopState) (windowId : string) (t : Z) :
  let s' := exec (minimizeWindow windowId) t s in
  nextZIndex s' = nextZIndex s
  /\ List.length (windows s') = List.length (windows s)
  /\ forall n w, nth_error (windows s) n = Some w ->
       exists w', nth_error (windows s') n = Some w'
         /\ (id w = windowId ->
               isMinimized w' = true
               /\ zIndex w' = zIndex w
               /\ position w' = position w
               /\ size w' = size w
               /\ id w' = id w
               /\ title w' = title w
               /\ component w' = component w
               /\ isMaximized w' = isMaximized w)
         /\ (id w <> windowId -> w' = w).
Proof.
  cbv zeta. rewrite exec_minimizeWindow; simpl.
  split; [reflexivity|]. split; [apply length_map|].
  intros n w Hn. eexists. split; [apply map_nth_error; exact Hn|].
  simpl. split.
  - intros <-. rewrite String.eqb_refl. simpl. repeat split.
  - intros Hne. apply String.eqb_neq in Hne. now rewrite Hne.
Qed.

(** * Invariants of the reachable states *)

Lemma in_map_update (f : AppWindow -> AppWindow) (windowId : string)
      (ws : list AppWindow) (w' : AppWindow) :
  In w' (map (fun w => if id w =? windowId then f w else w) ws) ->
  (exists w, In w ws /\ id w = windowId /\ w' = f w)
  \/ (In w' ws /\ id w' <> windowId).
Proof.
  intros Hin. apply in_map_iff in Hin. destruct Hin as [w [Hw Hin]].
  destruct (String.eqb_spec (id w) windowId) as [E|E].
  - left. exists w. auto.
  - right. subst w'. auto.
Qed.

Lemma Forall_map_update (P Q : AppWindow -> Prop)
      (f : AppWindow -> AppWindow) (windowId : string)
      (ws : list AppWindow) :
  Forall P ws ->
  (forall w, P w -> Q (f w)) ->
  (forall w, P w -> Q w) ->
  Forall Q (map (fun w => if id w =? windowId then f w else w) ws).
Proof.
  intros HP Hf Hid. apply Forall_map.
  eapply Forall_impl; [|exact HP].
  intros w Hw. simpl. destruct (id w =? windowId); auto.
Qed.

Lemma NoDup_map_filter {A B : Type} (g : A -> B) (f : A -> bool)
      (l : list A) :
  NoDup (map g l) -> NoDup (map g (filter f l)).
Proof.
  induction l as [|a l IH]; simpl; intros H; [constructor|].
  inversion H as [|? ? Hnotin Hnd]; subst.
  destruct (f a); simpl; [|auto].
  constructor; [|auto].
  intros Hin. apply Hnotin. apply in_map_iff in Hin.
  destruct Hin as [b [Hb Hin]]. apply filter_In in Hin.
  apply in_map_iff. exists b. tauto.
Qed.

Lemma NoDup_snoc {A : Type} (l : list A) (a : A) :
  NoDup l -> ~ In a l -> NoDup (l ++ [a]).
Proof.
  intros Hl Ha. apply NoDup_app; [exact Hl | repeat constructor; auto |].
  intros b Hb [<-|[]]. contradiction.
Qed.

Lemma find_component_none (appType : string) (ws : list AppWindow) :
  find (fun w => component w =? appType) ws = None ->
  ~ In appType (map component ws).
Proof.
  intros Hfind Hin. apply in_map_iff in Hin. destruct Hin as [w [Hc Hw]].
  apply (find_none _ _ Hfind) in Hw. apply String.eqb_neq in Hw. auto.
Qed.

Section Preservation.

Variables (t : Z) (c : Command) (s : DesktopState).

Lemma z_bounded_focus (windowId : string) :
  z_bounded s -> z_bounded (exec (focusWindow windowId) t s).
Proof.
  intros [Hseed Hws]. rewrite exec_focusWindow. split; simpl; [lia|].
  eapply Forall_map_update; [exact Hws| |]; simpl; intros; lia.
Qed.

Lemma z_bounded_step : z_bounded s -> z_bounded (step t c s).
Proof.
  intros Hinv. destruct c as [a ti|i|i|i|i|i p|i sz].
  - rewrite step_Open.
    destruct (find (fun w => component w =? a) (windows s)) as [w|] eqn:E.
    + rewrite (exec_openApp_existing _ _ _ _ _ E).
      now apply z_bounded_focus.
    + rewrite (exec_openApp_new _ _ _ _ E).
      destruct Hinv as [Hseed Hws]. split; simpl; [lia|].
      apply Forall_app. split.
      * eapply Forall_impl; [|exact Hws]. simpl; intros; lia.
      * repeat constructor; simpl; lia.
  - destruct Hinv as [Hseed Hws]. split; simpl; [exact Hseed|].
    apply Forall_forall. intros w Hw. apply filter_In in Hw.
    rewrite Forall_forall in Hws. now apply Hws.
  - destruct Hinv as [Hseed Hws]. split; simpl; [exact Hseed|].
    eapply Forall_map_update; [exact Hws| |]; simpl; auto.
  - destruct Hinv as [Hseed Hws]. split; simpl; [exact Hseed|].
    eapply Forall_map_update; [exact Hws| |]; simpl; auto.
  - now apply z_bounded_focus.
  - destruct Hinv as [Hseed Hws]. split; simpl; [exact Hseed|].
    eapply Forall_map_update; [exact Hws| |]; simpl; auto.
  - destruct Hinv as [Hseed Hws]. split; simpl; [exact Hseed|].
    eapply Forall_map_update; [exact Hws| |]; simpl; auto.
Qed.

Lemma one_per_component_step :
  one_per_component s -> one_per_component (step t c s).
Proof.
  unfold one_per_component. intros Hinv.
  destruct c as [a ti|i|i|i|i|i p|i sz].
  - rewrite step_Open.
    destruct (find (fun w => component w =? a) (windows s)) as [w|] eqn:E.
    + rewrite (exec_openApp_existing _ _ _ _ _ E), exec_focusWindow; simpl.
      now rewrite map_update_preserves.
    + rewrite (exec_openApp_new _ _ _ _ E); simpl.
      rewrite map_app; simpl. apply NoDup_snoc; [exact Hinv|].
      now apply find_component_none.
  - simpl. now apply NoDup_map_filter.
  - simpl. now rewrite map_update_preserves.
  - simpl. now rewrite map_update_preserves.
  - simpl. now rewrite map_update_preserves.
  - simpl. now rewrite map_update_preserves.
  - simpl. now rewrite map_update_preserves.
Qed.

(** The counter never goes down. *)
Lemma nextZIndex_monotone : nextZIndex s <= nextZIndex (step t c s).
Proof.
  destruct c as [a ti|i|i|i|i|i p|i sz]; simpl; try lia.
  rewrite step_Open.
  destruct (find (fun w => component w =? a) (windows s)) as [w|] eqn:E.
  - rewrite (exec_openApp_existing _ _ _ _ _ E), exec_focusWindow.
    simpl; lia.
  - rewrite (exec_openApp_new _ _ _ _ E). simpl; lia.
Qed.

End Preservation.

Lemma reachable_z_bounded (s : DesktopState) : reachable s -> z_bounded s.
Proof.
  induction 1 as [|t c s _ IH].
  - split; simpl; [lia | constructor].
  - now apply z_bounded_step.
Qed.

Lemma reachable_one_per_component (s : DesktopState) :
  reachable s -> one_per_component s.
Proof.
  induction 1 as [|t c s _ IH].
  - constructor.
  - now apply one_per_component_step.
Qed.

Lemma reachable_run (evs : list (Z * Command)) (s : DesktopState) :
  reachable s -> reachable (run evs s).
Proof.
  revert s. induction evs as [|[t c] evs IH]; simpl; intros s Hs; [exact Hs|].
  apply IH. now constructor.
Qed.

Lemma nextZIndex_run_monotone (evs : list (Z * Command)) (s : DesktopState) :
  nextZIndex s <= nextZIndex (run evs s).
Proof.
  revert s. induction evs as [|[t c] evs IH]; simpl; intros s; [lia|].
  etransitivity; [apply (nextZIndex_monotone t c)|apply IH].
Qed.

(** Windows are stacked above the chrome: the icon grid and the system
    card ([z-10]) and the taskbar ([z-50]). *)
Lemma reachable_above_chrome (s : DesktopState) (w : AppWindow) :
  reachable s -> In w (windows s) ->
  desktop_icons_z < zIndex w /\ taskbar_z < zIndex w.
Proof.
  intros Hreach Hw. destruct (reachable_z_bounded _ Hreach) as [_ Hall].
  rewrite Forall_forall in Hall. specialize (Hall w Hw).
  unfold desktop_icons_z, taskbar_z. lia.
Qed.

Lemma z_shared_by_id_only_focus (t : Z) (s : DesktopState)
      (windowId : string) :
  z_bounded s -> z_shared_by_id_only s ->
  z_shared_by_id_only (exec (focusWindow windowId) t s).
Proof.
  intros [_ Hall] Hinv w w' Hw Hw' Hz.
  rewrite Forall_forall in Hall.
  rewrite exec_focusWindow in Hw, Hw'; cbn [windows] in Hw, Hw'.
  apply in_map_update in Hw, Hw'.
  destruct Hw as [[v [Hv [Hid ->]]]|[Hw Hid]],
           Hw' as [[v' [Hv' [Hid' ->]]]|[Hw' Hid']]; simpl in *.
  - congruence.
  - specialize (Hall w' Hw'). lia.
  - specialize (Hall w Hw). lia.
  - now apply Hinv.
Qed.

Lemma z_shared_by_id_only_update (s : DesktopState) (windowId : string)
      (f : AppWindow -> AppWindow) :
  (forall w, id (f w) = id w) -> (forall w, zIndex (f w) = zIndex w) ->
  z_shared_by_id_only s ->
  z_shared_by_id_only
    (mkDesktop (map (fun w => if id w =? windowId then f w else w)
                    (windows s))
               (nextZIndex s)).
Proof.
  intros Hfid Hfz Hinv w w' Hw Hw' Hz. cbn [windows] in Hw, Hw'.
  apply in_map_update in Hw, Hw'.
  destruct Hw as [[v [Hv [Hid ->]]]|[Hw Hid]],
           Hw' as [[v' [Hv' [Hid' ->]]]|[Hw' Hid']];
    rewrite ?Hfid, ?Hfz in *; try congruence; now apply Hinv.
Qed.

Lemma z_shared_by_id_only_step (t : Z) (c : Command) (s : DesktopState) :
  z_bounded s -> z_shared_by_id_only s -> z_shared_by_id_only (step t c s).
Proof.
  intros Hb Hinv. destruct c as [a ti|i|i|i|i|i p|i sz].
  - rewrite step_Open.
    destruct (find (fun w => component w =? a) (windows s)) as [ex|] eqn:E.
    + rewrite (exec_openApp_existing _ _ _ _ _ E).
      now apply z_shared_by_id_only_focus.
    + rewrite (exec_openApp_new _ _ _ _ E).
      destruct Hb as [_ Hall]. rewrite Forall_forall in Hall.
      intros w w' Hw Hw' Hz. cbn [windows] in Hw, Hw'.
      apply in_app_iff in Hw, Hw'.
      destruct Hw as [Hw|[<-|[]]], Hw' as [Hw'|[<-|[]]]; simpl in *.
      * now apply Hinv.
      * specialize (Hall w Hw). lia.
      * specialize (Hall w' Hw'). lia.
      * reflexivity.
  - intros w w' Hw Hw'. simpl in Hw, Hw'.
    apply filter_In in Hw, Hw'. apply Hinv; tauto.
  - now apply z_shared_by_id_only_update.
  - now apply z_shared_by_id_only_update.
  - now apply z_shared_by_id_only_focus.
  - now apply z_shared_by_id_only_update.
  - now apply z_shared_by_id_only_update.
Qed.

(** In a reachable state, windows that share a zIndex share their id. *)
Lemma reachable_z_shared_by_id_only (s : DesktopState) :
  reachable s -> z_shared_by_id_only s.
Proof.
  induction 1 as [|t c s Hreach IH].
  - intros w w' [].
  - apply z_shared_by_id_only_step; [now apply reachable_z_bounded|exact IH].
Qed.

(** * Focusing *)

(** What focus does to the windows, one window at a time. *)
Lemma focusWindow_windows (s : DesktopState) (windowId : string) (t : Z)
      (w' : AppWindow) :
  In w' (windows (exec (focusWindow windowId) t s)) ->
  (id w' = windowId /\ zIndex w' = nextZIndex s /\ isMinimized w' = false)
  \/ (id w' <> windowId /\ In w' (windows s)).
Proof.
  rewrite exec_focusWindow; simpl. intros Hin.
  apply in_map_update in Hin. destruct Hin as [[w [Hw [Hid ->]]]|[Hin Hid]].
  - left. simpl. auto.
  - right. auto.
Qed.

(** Focus preserves the ids and their order. *)
Lemma focusWindow_ids (s : DesktopState) (windowId : string) (t : Z) :
  map id (windows (exec (focusWindow windowId) t s)) = map id (windows s).
Proof.
  rewrite exec_focusWindow; simpl. now rewrite map_update_preserves.
Qed.

(** The focused window against a window with another id. *)
Lemma focusWindow_above (s : DesktopState) (windowId : string) (t : Z)
      (w w' : AppWindow) :
  z_bounded s ->
  In w (windows (exec (focusWindow windowId) t s)) -> id w = windowId ->
  In w' (windows (exec (focusWindow windowId) t s)) -> id w' <> windowId ->
  zIndex w' < zIndex w.
Proof.
  intros [_ Hall] Hw Hid Hw' Hid'.
  destruct (focusWindow_windows _ _ _ _ Hw) as [[_ [Hz _]]|[Hne _]];
    [|contradiction].
  destruct (focusWindow_windows _ _ _ _ Hw') as [[He _]|[_ Hold]];
    [contradiction|].
  rewrite Forall_forall in Hall. specialize (Hall w' Hold). lia.
Qed.

(** X26: in a reachable state, after focus(id) the ids and their order are
    as before, and a window with that id is not minimized and has a zIndex
    strictly above that of every window with another id; the same holds
    for isMinimized when minimize(id) came just before. *)
Theorem focusWindow_on_top (s : DesktopState) (windowId : string) (t : Z) :
  reachable s ->
  let s' := exec (focusWindow windowId) t s in
  map id (windows s') = map id (windows s)
  /\ (forall w, In w (windows s') -> id w = windowId ->
        isMinimized w = false
        /\ forall w', In w' (windows s') -> id w' <> windowId ->
                      zIndex w' < zIndex w)
  /\ (forall t0 w,
        In w (windows (exec (focusWindow windowId) t
                            (exec (minimizeWindow windowId) t0 s))) ->
        id w = windowId -> isMinimized w = false).
Proof.
  intros Hreach. cbv zeta. split; [|split].
  - apply focusWindow_ids.
  - intros w Hw Hid. split.
    + destruct (focusWindow_windows _ _ _ _ Hw) as [[_ [_ Hmin]]|[Hne _]];
        [exact Hmin | contradiction].
    + intros w' Hw' Hid'.
      eapply focusWindow_above; eauto using reachable_z_bounded.
  - intros t0 w Hw Hid.
    destruct (focusWindow_windows _ _ _ _ Hw) as [[_ [_ Hmin]]|[Hne _]];
      [exact Hmin | contradiction].
Qed.

(** With one window per id, "every window with another id" is every other
    entry of the array. *)
Lemma focusWindow_above_positional (s : DesktopState) (windowId : string)
      (t : Z) (i j : nat) (w w' : AppWindow) :
  z_bounded s ->
  NoDup (map id (windows s)) ->
  nth_error (windows (exec (focusWindow windowId) t s)) i = Some w ->
  nth_error (windows (exec (focusWindow windowId) t s)) j = Some w' ->
  id w = windowId -> i <> j -> zIndex w' < zIndex w.
Proof.
  intros Hinv Hnd Hi Hj Hid Hij.
  eapply focusWindow_above; eauto using nth_error_In.
  intros Hid'. apply Hij.
  rewrite <- (focusWindow_ids s windowId t) in Hnd.
  apply (proj1 (NoDup_nth_error _) Hnd).
  - apply nth_error_Some. rewrite (map_nth_error id _ _ Hi). discriminate.
  - rewrite (map_nth_error id _ _ Hi), (map_nth_error id _ _ Hj).
    congruence.
Qed.

(** C10: focus on an id that no window has leaves the window list as it
    was but still advances the counter, so whichever window the next
    focus or open touches gets the old counter value plus one (it would
    have got the old counter value itself). *)
Theorem focusWindow_stale_id (s : DesktopState) (windowId : string) (t : Z) :
  (forall w, In w (windows s) -> id w <> windowId) ->
  let s' := exec (focusWindow windowId) t s in
  windows s' = windows s
  /\ nextZIndex s' = nextZIndex s + 1
  /\ (forall i t1 w, In w (windows (exec (focusWindow i) t1 s')) ->
        id w = i -> zIndex w = nextZIndex s + 1)
  /\ (forall a ti t1 w, In w (windows (exec (openApp a ti) t1 s')) ->
        ~ In w (windows s) -> zIndex w = nextZIndex s + 1)
  /\ (forall i t1 w, In w (windows (exec (focusWindow i) t1 s)) ->
        id w = i -> zIndex w = nextZIndex s).
Proof.
  intros Hstale. cbv zeta.
  assert (Hws : windows (exec (focusWindow windowId) t s) = windows s).
  { rewrite exec_focusWindow; simpl. apply map_unchanged.
    intros w Hw. apply Hstale, String.eqb_neq in Hw. now rewrite Hw. }
  assert (Hnz : nextZIndex (exec (focusWindow windowId) t s)
                = nextZIndex s + 1) by reflexivity.
  repeat split; auto.
  - intros i t1 w Hw Hid.
    destruct (focusWindow_windows
                (exec (focusWindow windowId) t s) _ _ _ Hw)
      as [[_ [Hz _]]|[Hne _]]; [congruence | contradiction].
  - intros a ti t1 w Hw Hnew.
    destruct (find (fun w => component w =? a)
                (windows (exec (focusWindow windowId) t s))) as [ex|] eqn:E.
    + rewrite (exec_openApp_existing _ _ _ _ _ E) in Hw.
      destruct (focusWindow_windows
                  (exec (focusWindow windowId) t s) _ _ _ Hw)
        as [[_ [Hz _]]|[_ Hold]]; [congruence|].
      rewrite Hws in Hold. contradiction.
    + rewrite (exec_openApp_new _ _ _ _ E) in Hw. cbn [windows] in Hw.
      apply in_app_iff in Hw. destruct Hw as [Hold|[<-|[]]].
      * rewrite Hws in Hold. contradiction.
      * reflexivity.
  - intros i t1 w Hw Hid.
    destruct (focusWindow_windows _ _ _ _ Hw) as [[_ [Hz _]]|[Hne _]];
      [congruence | contradiction].
Qed.

(** * Opening *)

Lemma find_component_absent (appType : string) (ws : list AppWindow) :
  (forall w, In w ws -> component w <> appType) ->
  find (fun w => component w =? appType) ws = None.
Proof.
  induction ws as [|w ws IH]; simpl; intros H; [reflexivity|].
  destruct (String.eqb_spec (component w) appType) as [E|E].
  - exfalso. apply (H w); auto.
  - apply IH. auto.
Qed.

Lemma find_component_present (appType : string) (ws : list AppWindow) :
  (exists w, In w ws /\ component w = appType) ->
  exists ex, find (fun w => component w =? appType) ws = Some ex
             /\ In ex ws /\ component ex = appType.
Proof.
  intros [w [Hw Hc]].
  destruct (find (fun w => component w =? appType) ws) as [ex|] eqn:E.
  - exists ex. apply find_some in E. destruct E as [Hin He].
    apply String.eqb_eq in He. auto.
  - apply (find_none _ _ E) in Hw. apply String.eqb_neq in Hw. contradiction.
Qed.

Lemma NoDup_map_injective {A B : Type} (g : A -> B) (l : list A) (a b : A) :
  NoDup (map g l) -> In a l -> In b l -> g a = g b -> a = b.
Proof.
  induction l as [|c l IH]; simpl; intros Hnd Ha Hb Hg; [contradiction|].
  inversion Hnd as [|? ? Hnotin Hnd']; subst.
  destruct Ha as [->|Ha], Hb as [->|Hb]; auto.
  - exfalso. apply Hnotin. rewrite Hg. now apply in_map.
  - exfalso. apply Hnotin. rewrite <- Hg. now apply in_map.
Qed.

(** C2 as the code has it: openApp returns nothing on either path.  In a
    reachable state, when a window of that type exists the window list
    keeps its length, ids and types, and the window of that type ends
    with a zIndex at least that of every window; when none exists one
    window is appended, with the clock reading as id, the staggered
    position, the default size and the counter value as zIndex. *)
Theorem openApp_focus_or_create (s : DesktopState) (appType title : string)
        (t : Z) :
  reachable s ->
  let s' := exec (openApp appType title) t s in
  returned (openApp appType title) t s = None
  /\ ((exists w, In w (windows s) /\ component w = appType) ->
        List.length (windows s') = List.length (windows s)
        /\ map id (windows s') = map id (windows s)
        /\ map component (windows s') = map component (windows s)
        /\ forall w, In w (windows s') -> component w = appType ->
             forall w', In w' (windows s') -> zIndex w' <= zIndex w)
  /\ ((forall w, In w (windows s) -> component w <> appType) ->
        s' = mkDesktop
               (windows s ++
                [mkAppWindow (toString t) title appType false false
                   (mkPosition (100 + Z.of_nat (List.length (windows s)) * 30)
                               (100 + Z.of_nat (List.length (windows s)) * 30))
                   (mkSize 800 600) (nextZIndex s)])
               (nextZIndex s + 1)).
Proof.
  intros Hreach. cbv zeta. split; [apply returned_openApp|]. split.
  - intros Hex. apply find_component_present in Hex.
    destruct Hex as [ex [Hfind [Hin Hc]]].
    rewrite (exec_openApp_existing _ _ _ _ _ Hfind).
    assert (Hcomp : map component
                      (windows (exec (focusWindow (id ex)) t s))
                    = map component (windows s)).
    { rewrite exec_focusWindow; simpl. now rewrite map_update_preserves. }
    split; [|split; [|split]].
    + rewrite exec_focusWindow; simpl. apply length_map.
    + apply focusWindow_ids.
    + exact Hcomp.
    + intros w Hw Hcw w' Hw'.
      destruct (reachable_z_bounded _ Hreach) as [_ Hall].
      rewrite Forall_forall in Hall.
      assert (Hz : zIndex w = nextZIndex s).
      { destruct (focusWindow_windows _ _ _ _ Hw) as [[_ [Hz _]]|[Hne Hold]];
          [exact Hz|].
        exfalso. apply Hne. f_equal.
        apply (NoDup_map_injective component (windows s)); auto.
        - now apply reachable_one_per_component.
        - congruence. }
      destruct (focusWindow_windows _ _ _ _ Hw') as [[_ [Hz' _]]|[_ Hold]].
      * lia.
      * specialize (Hall w' Hold). lia.
  - intros Hnone. apply find_component_absent in Hnone.
    apply exec_openApp_new. exact Hnone.
Qed.

(** C2 as the spec words it fails: with the Notes window "7" open, opening
    Notes again does not return "7" (nor anything else). *)
Lemma openApp_returns_no_id :
  let s := exec (openApp "NotesApp" "Notes") 7 initialState in
  map id (windows s) = ["7"]
  /\ map component (windows s) = ["NotesApp"]
  /\ returned (openApp "NotesApp" "Notes") 8 s <> Some "7".
Proof.
  cbv zeta. repeat split. vm_compute. discriminate.
Qed.

(** * Resizing *)

(** C5 as the spec words it fails: a window 800 wide resized to width 200
    is stored 200 wide, not 300. *)
Lemma updateWindowSize_stores_width_below_floor :
  let s := exec (openApp "NotesApp" "Notes") 7 initialState in
  let s' := exec (updateWindowSize "7" (mkSize 200 600)) 8 s in
  map id (windows s) = ["7"]
  /\ map (fun w => width (size w)) (windows s') = [200]
  /\ ~ (forall w, In w (windows s') -> id w = "7" -> width (size w) = 300).
Proof.
  cbv zeta. repeat split. intros H.
  specialize (H (mkAppWindow "7" "Notes" "NotesApp" false false
                   (mkPosition 100 100) (mkSize 200 600) 1000)).
  cbn in H. specialize (H (or_introl eq_refl) eq_refl). discriminate.
Qed.

(** C5 as the code has it: resize(id, size) is never refused; a window
    with that id stores exactly the requested size, whatever its width,
    and keeps its other fields; every window with another id, the number of
    windows and the counter are unchanged. *)
Theorem updateWindowSize_stores_request (s : DesktopState)
        (windowId : string) (sz : Size) (t : Z) :
  let s' := exec (updateWindowSize windowId sz) t s in
  nextZIndex s' = nextZIndex s
  /\ List.length (windows s') = List.length (windows s)
  /\ forall n w, nth_error (windows s) n = Some w ->
       exists w', nth_error (windows s') n = Some w'
         /\ (id w = windowId -> w' = with_size w sz /\ size w' = sz)
         /\ (id w <> windowId -> w' = w).
Proof.
  cbv zeta. rewrite exec_updateWindowSize; simpl.
  split; [reflexivity|]. split; [apply length_map|].
  intros n w Hn. eexists. split; [apply map_nth_error; exact Hn|].
  simpl. split.
  - intros <-. rewrite String.eqb_refl. split; reflexivity.
  - intros Hne. apply String.eqb_neq in Hne. now rewrite Hne.
Qed.

(** * The taskbar view *)

(** C9: the open-window area has one button per non-minimized window, in
    order, keyed by the window's id, and its click handler is focus on
    that id; a quick-launch button is highlighted exactly when some
    window, minimized or not, has its application type. *)
Theorem taskbar_reflects_registry (s : DesktopState) :
  let view := Desktop_Taskbar s in
  map TaskbarTsx.wb_key (TaskbarTsx.openWindows view)
    = map id (filter (fun w => negb (isMinimized w)) (windows s))
  /\ Forall (fun b => TaskbarTsx.wb_onClick b
                      = focusWindow (TaskbarTsx.wb_key b))
            (TaskbarTsx.openWindows view)
  /\ map TaskbarTsx.ql_key (TaskbarTsx.quickLaunch view)
       = ["FileManager"; "CodeEditor"; "AIAssistant"; "Terminal"]
  /\ Forall (fun q => TaskbarTsx.ql_isOpen q = true <->
                      exists w, In w (windows s)
                                /\ component w = TaskbarTsx.ql_key q)
            (TaskbarTsx.quickLaunch view).
Proof.
  cbv zeta. unfold Desktop_Taskbar, TaskbarTsx.Taskbar; simpl.
  split; [|split; [|split]].
  - now rewrite map_map.
  - apply Forall_map. apply Forall_forall. reflexivity.
  - reflexivity.
  - repeat (apply Forall_cons;
      [ simpl; rewrite existsb_exists;
        split; intros [w [Hw Hc]]; exists w; split; auto;
        now apply String.eqb_eq | ]).
    apply Forall_nil.
Qed.

(** * Window ids *)

(** Two clock readings print alike only when they are equal. *)
Lemma toString_injective (a b : Z) : toString a = toString b -> a = b.
Proof.
  unfold toString. intros H.
  assert (Hok : forall z, NilZero.int_of_string
                            (NilZero.string_of_int (Z.to_int z))
                          = Some (Z.to_int z)).
  { intros z. apply NilZero.isi; destruct z; simpl; try discriminate;
      intros E; injection E; apply DecimalPos.Unsigned.to_uint_nonnil. }
  pose proof (Hok a) as Ha. rewrite H, Hok in Ha.
  injection Ha as Ha.
  rewrite <- (DecimalZ.of_to a), <- (DecimalZ.of_to b). now rewrite Ha.
Qed.

(** Ids stay pairwise distinct as long as every creating event reads a
    fresh clock value. *)
Lemma ids_distinct_step (t : Z) (c : Command) (s : DesktopState) :
  NoDup (map id (windows s)) -> fresh_clock t c s ->
  NoDup (map id (windows (step t c s))).
Proof.
  intros Hnd Hfresh. destruct c as [a ti|i|i|i|i|i p|i sz]; simpl in *;
    try (now rewrite map_update_preserves).
  - rewrite step_Open.
    destruct (find (fun w => component w =? a) (windows s)) as [w|] eqn:E.
    + rewrite (exec_openApp_existing _ _ _ _ _ E). now rewrite focusWindow_ids.
    + rewrite (exec_openApp_new _ _ _ _ E); simpl.
      rewrite map_app; simpl. apply NoDup_snoc; auto.
  - now apply NoDup_map_filter.
Qed.

(** When ids are pairwise distinct, focus changes at most one zIndex, so
    distinct zIndex values stay distinct. *)
Lemma focus_keeps_zIndex_distinct (windowId : string) (z : Z)
      (ws : list AppWindow) :
  NoDup (map id ws) -> NoDup (map zIndex ws) ->
  Forall (fun w => zIndex w < z) ws ->
  NoDup (map zIndex
           (map (fun w => if id w =? windowId
                          then with_isMinimized (with_zIndex w z) false
                          else w) ws)).
Proof.
  induction ws as [|w ws IH]; simpl; intros Hid Hz Hlt; [constructor|].
  inversion Hid as [|? ? Hid1 Hid2]; subst.
  inversion Hz as [|? ? Hz1 Hz2]; subst.
  inversion Hlt as [|? ? Hlt1 Hlt2]; subst.
  destruct (String.eqb_spec (id w) windowId) as [E|E].
  - rewrite map_unchanged.
    + simpl. constructor; [|exact Hz2].
      intros Hin. apply in_map_iff in Hin. destruct Hin as [w' [Hw' Hin]].
      rewrite Forall_forall in Hlt2. specialize (Hlt2 w' Hin). lia.
    + intros w' Hw'. destruct (String.eqb_spec (id w') windowId) as [E'|E'];
        [|reflexivity].
      exfalso. apply Hid1. rewrite E, <- E'. now apply in_map.
  - constructor; [|now apply IH].
    intros Hin. apply in_map_iff in Hin. destruct Hin as [w' [Hw' Hin]].
    apply in_map_update in Hin.
    destruct Hin as [[w0 [Hw0 [_ ->]]]|[Hin _]].
    + simpl in Hw'. lia.
    + apply Hz1. rewrite <- Hw'. now apply in_map.
Qed.

Lemma zIndex_distinct_step (t : Z) (c : Command) (s : DesktopState) :
  z_bounded s ->
  NoDup (map id (windows s)) -> NoDup (map zIndex (windows s)) ->
  NoDup (map zIndex (windows (step t c s))).
Proof.
  intros [_ Hall] Hid Hz.
  assert (Hlt : Forall (fun w => zIndex w < nextZIndex s) (windows s)).
  { eapply Forall_impl; [|exact Hall]. simpl; intros; lia. }
  destruct c as [a ti|i|i|i|i|i p|i sz]; simpl;
    try (now rewrite map_update_preserves).
  - rewrite step_Open.
    destruct (find (fun w => component w =? a) (windows s)) as [w|] eqn:E.
    + rewrite (exec_openApp_existing _ _ _ _ _ E), exec_focusWindow; simpl.
      now apply focus_keeps_zIndex_distinct.
    + rewrite (exec_openApp_new _ _ _ _ E); simpl.
      rewrite map_app; simpl. apply NoDup_snoc; [exact Hz|].
      intros Hin. apply in_map_iff in Hin. destruct Hin as [w' [Hw' Hin]].
      rewrite Forall_forall in Hlt. specialize (Hlt w' Hin). lia.
  - now apply NoDup_map_filter.
  - now apply focus_keeps_zIndex_distinct.
Qed.

(** C3 on the code: two different applications opened at one clock
    reading give a reachable state with two windows that share an id; and
    the id of a window that was closed is given again to a window created
    at the same reading. *)
Theorem openApp_same_reading_shares_id :
  let s := run same_reading_session initialState in
  (reachable s
   /\ map component (windows s) = ["NotesApp"; "Terminal"]
   /\ map id (windows s) = ["1700000000000"; "1700000000000"]
   /\ ~ NoDup (map id (windows s)))
  /\ (map (fun w => (id w, component w))
          (windows (run (firstn 1 reuse_session) initialState))
        = [("1700000000000", "NotesApp")]
      /\ windows (run (firstn 2 reuse_session) initialState) = []
      /\ map (fun w => (id w, component w))
             (windows (run reuse_session initialState))
        = [("1700000000000", "Terminal")]).
Proof.
  cbv zeta. split.
  - split; [apply reachable_run; constructor|].
    split; [reflexivity|]. split; [reflexivity|].
    change (map id (windows (run same_reading_session initialState)))
      with ["1700000000000"; "1700000000000"].
    intros H. inversion H as [|? ? Hnotin _]; subst.
    apply Hnotin. left. reflexivity.
  - repeat split.
Qed.

(** C4 on the code: focusing the shared id of the state above gives a
    reachable state in which two windows have the same zIndex. *)
Theorem focus_shared_id_shares_zIndex :
  let s := run (same_reading_session ++ [(1700000000500, Focus "1700000000000")])
               initialState in
  reachable s
  /\ map component (windows s) = ["NotesApp"; "Terminal"]
  /\ map zIndex (windows s) = [1002; 1002]
  /\ ~ NoDup (map zIndex (windows s)).
Proof.
  cbv zeta. split; [apply reachable_run; constructor|].
  split; [reflexivity|]. split; [reflexivity|].
  change (map zIndex (windows (run (same_reading_session ++
            [(1700000000500, Focus "1700000000000")]) initialState)))
    with [1002; 1002].
  intros H. inversion H as [|? ? Hnotin _]; subst.
  apply Hnotin. left. reflexivity.
Qed.

(** * Concrete instances *)

Lemma demo_state_reachable : reachable demo_state.
Proof. apply reachable_run. constructor. Defined.

Lemma demo_state_no_999 :
  forall w, In w (windows demo_state) -> id w <> "999".
Proof.
  intros w [<-|[<-|[]]]; discriminate.
Defined.

(** Focusing the minimized Notes window of [demo_state]. *)
Lemma focusWindow_on_top_witness :
  reachable demo_state
  /\ forall w, In w (windows (exec (focusWindow "7") 10 demo_state)) ->
       id w = "7" ->
       isMinimized w = false
       /\ forall w', In w' (windows (exec (focusWindow "7") 10 demo_state)) ->
                     id w' <> "7" -> zIndex w' < zIndex w.
Proof.
  split; [exact demo_state_reachable|].
  exact (proj1 (proj2
    (focusWindow_on_top demo_state "7" 10 demo_state_reachable))).
Defined.

(** Opening Terminal again in [demo_state]. *)
Lemma openApp_focus_or_create_witness :
  reachable demo_state
  /\ returned (openApp "Terminal" "Terminal") 10 demo_state = None
  /\ List.length (windows (exec (openApp "Terminal" "Terminal") 10 demo_state))
     = List.length (windows demo_state).
Proof.
  split; [exact demo_state_reachable|].
  destruct (openApp_focus_or_create demo_state "Terminal" "Terminal" 10
              demo_state_reachable) as [Hret [Hexisting _]].
  split; [exact Hret|].
  apply Hexisting.
  exists (mkAppWindow "8" "Terminal" "Terminal" false false
            (mkPosition 130 130) (mkSize 800 600) 1001).
  split; [right; left; reflexivity | reflexivity].
Defined.

(** Resizing the Terminal window of [demo_state] to 200 by 150. *)
Lemma updateWindowSize_stores_request_witness :
  exists w', nth_error (windows (exec (updateWindowSize "8" (mkSize 200 150))
                                      10 demo_state)) 1 = Some w'
             /\ size w' = mkSize 200 150.
Proof.
  destruct (updateWindowSize_stores_request demo_state "8" (mkSize 200 150) 10)
    as [_ [_ H]].
  destruct (H 1%nat _ eq_refl) as [w' [Hn [Hsame _]]].
  exists w'. split; [exact Hn|]. exact (proj2 (Hsame eq_refl)).
Defined.

(** Closing an id that [demo_state] does not have. *)
Lemma closeWindow_idempotent_witness :
  (forall w, In w (windows demo_state) -> id w <> "999")
  /\ exec (closeWindow "999") 10 demo_state = demo_state.
Proof.
  split; [exact demo_state_no_999|].
  exact (proj2 (closeWindow_idempotent demo_state "999" 10 11)
               demo_state_no_999).
Defined.

(** Minimizing the Terminal window of [demo_state]. *)
Lemma minimizeWindow_frame_witness :
  exists w', nth_error (windows (exec (minimizeWindow "8") 10 demo_state)) 1
             = Some w'
             /\ isMinimized w' = true /\ zIndex w' = 1001.
Proof.
  destruct (minimizeWindow_frame demo_state "8" 10) as [_ [_ H]].
  destruct (H 1%nat _ eq_refl) as [w' [Hn [Hsame _]]].
  exists w'. split; [exact Hn|].
  destruct (Hsame eq_refl) as [Hmin [Hz _]]. split; [exact Hmin|exact Hz].
Defined.

(** Focusing an id that [demo_state] does not have. *)
Lemma focusWindow_stale_id_witness :
  (forall w, In w (windows demo_state) -> id w <> "999")
  /\ windows (exec (focusWindow "999") 10 demo_state) = windows demo_state
  /\ nextZIndex (exec (focusWindow "999") 10 demo_state)
     = nextZIndex demo_state + 1.
Proof.
  split; [exact demo_state_no_999|].
  destruct (focusWindow_stale_id demo_state "999" 10 demo_state_no_999)
    as [Hws [Hnz _]].
  split; [exact Hws|exact Hnz].
Defined.

(** * Further properties of the handlers *)

(** The entry at index [n] after a conditional update. *)
Lemma nth_error_map_update (f : AppWindow -> AppWindow) (windowId : string)
      (ws : list AppWindow) (n : nat) (w : AppWindow) :
  nth_error ws n = Some w ->
  nth_error (map (fun w => if id w =? windowId then f w else w) ws) n
  = Some (if id w =? windowId then f w else w).
Proof.
  intros Hn. now rewrite (map_nth_error _ _ _ Hn).
Qed.

Lemma run_app (evs1 evs2 : list (Z * Command)) (s : DesktopState) :
  run (evs1 ++ evs2) s = run evs2 (run evs1 s).
Proof. apply fold_left_app. Qed.

(** X1: Maximize flips isMaximized of the windows with that id and always
    clears their isMinimized, also when it turns maximization off; it does
    not raise the window: zIndex, the stored geometry, every other window
    and the counter are as before. *)
Theorem maximizeWindow_effect (s : DesktopState) (windowId : string) (t : Z) :
  let s' := exec (maximizeWindow windowId) t s in
  nextZIndex s' = nextZIndex s
  /\ List.length (windows s') = List.length (windows s)
  /\ forall n w, nth_error (windows s) n = Some w ->
       exists w', nth_error (windows s') n = Some w'
         /\ (id w = windowId ->
               isMaximized w' = negb (isMaximized w)
               /\ isMinimized w' = false
               /\ zIndex w' = zIndex w
               /\ position w' = position w
               /\ size w' = size w
               /\ id w' = id w
               /\ title w' = title w
               /\ component w' = component w)
         /\ (id w <> windowId -> w' = w).
Proof.
  cbv zeta. rewrite exec_maximizeWindow; simpl.
  split; [reflexivity|]. split; [apply length_map|].
  intros n w Hn. eexists. split; [apply nth_error_map_update; exact Hn|].
  split.
  - intros <-. rewrite String.eqb_refl. simpl. repeat split.
  - intros Hne. apply String.eqb_neq in Hne. now rewrite Hne.
Qed.

(** X2: A move stores the given position in the windows with that id, whatever
    the coordinates and whether or not the window is maximized or
    minimized; nothing else changes. *)
Theorem updateWindowPosition_stores_request (s : DesktopState)
        (windowId : string) (p : Position) (t : Z) :
  let s' := exec (updateWindowPosition windowId p) t s in
  nextZIndex s' = nextZIndex s
  /\ List.length (windows s') = List.length (windows s)
  /\ forall n w, nth_error (windows s) n = Some w ->
       exists w', nth_error (windows s') n = Some w'
         /\ (id w = windowId -> w' = with_position w p /\ position w' = p)
         /\ (id w <> windowId -> w' = w).
Proof.
  cbv zeta. rewrite exec_updateWindowPosition; simpl.
  split; [reflexivity|]. split; [apply length_map|].
  intros n w Hn. eexists. split; [apply nth_error_map_update; exact Hn|].
  split.
  - intros <-. rewrite String.eqb_refl. split; reflexivity.
  - intros Hne. apply String.eqb_neq in Hne. now rewrite Hne.
Qed.

(** X3: Focus changes nothing but zIndex and isMinimized of the windows with
    that id: a maximized window stays maximized, geometry, title and type
    stay, and every other window is as before. *)
Theorem focusWindow_frame (s : DesktopState) (windowId : string) (t : Z) :
  let s' := exec (focusWindow windowId) t s in
  List.length (windows s') = List.length (windows s)
  /\ forall n w, nth_error (windows s) n = Some w ->
       exists w', nth_error (windows s') n = Some w'
         /\ isMaximized w' = isMaximized w
         /\ position w' = position w
         /\ size w' = size w
         /\ id w' = id w
         /\ title w' = title w
         /\ component w' = component w
         /\ (id w = windowId -> zIndex w' = nextZIndex s)
         /\ (id w <> windowId -> w' = w).
Proof.
  cbv zeta. rewrite exec_focusWindow; simpl.
  split; [apply length_map|].
  intros n w Hn. eexists. split; [apply nth_error_map_update; exact Hn|].
  destruct (String.eqb_spec (id w) windowId) as [E|E]; simpl;
    repeat split; auto; contradiction.
Qed.

(** X4: Close removes every window with that id and only those: the windows
    left are exactly the earlier windows with another id, each unchanged,
    and the counter is as before (a closed window's zIndex is not given
    back). *)
Theorem closeWindow_removes (s : DesktopState) (windowId : string) (t : Z) :
  let s' := exec (closeWindow windowId) t s in
  nextZIndex s' = nextZIndex s
  /\ (forall w, In w (windows s') <-> In w (windows s) /\ id w <> windowId)
  /\ (List.length (windows s') <= List.length (windows s))%nat
  /\ ((exists w, In w (windows s) /\ id w = windowId) ->
      (List.length (windows s') < List.length (windows s))%nat).
Proof.
  cbv zeta. rewrite exec_closeWindow; simpl.
  split; [reflexivity|]. split; [|split].
  - intros w. rewrite filter_In, negb_true_iff, String.eqb_neq. tauto.
  - apply filter_length_le.
  - intros [w [Hw Hid]].
    induction (windows s) as [|v ws IH]; simpl in *; [contradiction|].
    destruct Hw as [->|Hw].
    + subst windowId. rewrite String.eqb_refl. simpl.
      pose proof (filter_length_le (fun w0 => negb (id w0 =? id w)) ws).
      lia.
    + specialize (IH Hw). destruct (negb (id v =? windowId)); simpl; lia.
Qed.

(** * The z-index counter over a session *)

Lemma nextZIndex_step (t : Z) (c : Command) (s : DesktopState) :
  nextZIndex (step t c s)
  = nextZIndex s + (if allocates c then 1 else 0).
Proof.
  destruct c as [a ti|i|i|i|i|i p|i sz]; simpl; try lia.
  rewrite step_Open.
  destruct (find (fun w => component w =? a) (windows s)) as [w|] eqn:E.
  - now rewrite (exec_openApp_existing _ _ _ _ _ E), exec_focusWindow.
  - now rewrite (exec_openApp_new _ _ _ _ E).
Qed.

(** X5: After any session the counter is its starting value plus the number
    of open and focus commands handled, whether or not they found a
    window; no other command moves it. *)
Theorem nextZIndex_counts_allocations (evs : list (Z * Command))
        (s : DesktopState) :
  nextZIndex (run evs s)
  = nextZIndex s
    + Z.of_nat (List.length (filter (fun ev => allocates (snd ev)) evs)).
Proof.
  revert s. induction evs as [|[t c] evs IH]; intros s; simpl; [lia|].
  change (nextZIndex (run evs (step t c s)) = nextZIndex s +
            Z.of_nat (List.length
              (if allocates c
               then (t, c) :: filter (fun ev => allocates (snd ev)) evs
               else filter (fun ev => allocates (snd ev)) evs))).
  rewrite IH, nextZIndex_step. destruct (allocates c); simpl List.length; lia.
Qed.

(** What a window of the next state can be: an earlier window with its id,
    type and zIndex, or one carrying the value the counter had. *)
Lemma step_window_origin (t : Z) (c : Command) (s : DesktopState)
      (w' : AppWindow) :
  In w' (windows (step t c s)) ->
  zIndex w' = nextZIndex s
  \/ exists w, In w (windows s) /\ id w = id w'
               /\ component w = component w' /\ zIndex w = zIndex w'.
Proof.
  assert (Hfocus : forall i,
    In w' (windows (exec (focusWindow i) t s)) ->
    zIndex w' = nextZIndex s
    \/ exists w, In w (windows s) /\ id w = id w'
                 /\ component w = component w' /\ zIndex w = zIndex w').
  { intros i Hin.
    destruct (focusWindow_windows _ _ _ _ Hin) as [[_ [Hz _]]|[_ Hold]];
      [left; exact Hz | right; exists w'; auto]. }
  assert (Hupd : forall i f,
    (forall w, id (f w) = id w) -> (forall w, component (f w) = component w) ->
    (forall w, zIndex (f w) = zIndex w) ->
    In w' (map (fun w => if id w =? i then f w else w) (windows s)) ->
    exists w, In w (windows s) /\ id w = id w'
              /\ component w = component w' /\ zIndex w = zIndex w').
  { intros i f Hid Hc Hz Hin. apply in_map_update in Hin.
    destruct Hin as [[w [Hw [_ ->]]]|[Hin _]].
    - exists w. rewrite Hid, Hc, Hz. auto.
    - exists w'. auto. }
  destruct c as [a ti|i|i|i|i|i p|i sz]; simpl.
  - rewrite step_Open.
    destruct (find (fun w => component w =? a) (windows s)) as [ex|] eqn:E.
    + rewrite (exec_openApp_existing _ _ _ _ _ E). apply Hfocus.
    + rewrite (exec_openApp_new _ _ _ _ E). cbn [windows]. intros Hin.
      apply in_app_iff in Hin. destruct Hin as [Hin|[<-|[]]].
      * right. exists w'. auto.
      * left. reflexivity.
  - intros Hin. apply filter_In in Hin. right. exists w'. tauto.
  - intros Hin. right. eapply Hupd; [| | |exact Hin]; reflexivity.
  - intros Hin. right. eapply Hupd; [| | |exact Hin]; reflexivity.
  - apply Hfocus.
  - intros Hin. right. eapply Hupd; [| | |exact Hin]; reflexivity.
  - intros Hin. right. eapply Hupd; [| | |exact Hin]; reflexivity.
Qed.

(** X6: A zIndex is never handed out twice: a window that after any further
    commands carries a value below the present counter is a window that
    carries it now, with the same id and type.  So the value of a window
    that was closed or refocused does not come back. *)
Theorem zIndex_never_reused (evs : list (Z * Command)) (s : DesktopState)
        (w' : AppWindow) :
  In w' (windows (run evs s)) ->
  zIndex w' < nextZIndex s ->
  exists w, In w (windows s) /\ id w = id w'
            /\ component w = component w' /\ zIndex w = zIndex w'.
Proof.
  revert w'. induction evs as [|[t c] evs IH] using rev_ind; intros w' Hin Hlt.
  - exists w'. auto.
  - rewrite run_app in Hin. simpl in Hin.
    destruct (step_window_origin _ _ _ _ Hin) as [Hz|[w [Hw [Hid [Hc Hz]]]]].
    + pose proof (nextZIndex_run_monotone evs s). lia.
    + destruct (IH w Hw ltac:(lia)) as [w0 [Hw0 [Hid0 [Hc0 Hz0]]]].
      exists w0. repeat split; congruence.
Qed.

(** X7: A window that openApp creates in a reachable state is not minimized
    and is strictly above every window that was there. *)
Theorem openApp_new_window_on_top (s : DesktopState) (appType title : string)
        (t : Z) (w : AppWindow) :
  reachable s ->
  (forall v, In v (windows s) -> component v <> appType) ->
  In w (windows (exec (openApp appType title) t s)) ->
  component w = appType ->
  isMinimized w = false
  /\ isMaximized w = false
  /\ zIndex w = nextZIndex s
  /\ forall v, In v (windows s) -> zIndex v < zIndex w.
Proof.
  intros Hreach Hnone Hin Hc.
  rewrite (exec_openApp_new _ _ _ _ (find_component_absent _ _ Hnone)) in Hin.
  cbn [windows] in Hin. apply in_app_iff in Hin.
  destruct Hin as [Hin|[<-|[]]].
  - exfalso. exact (Hnone w Hin Hc).
  - simpl. repeat split.
    intros v Hv. destruct (reachable_z_bounded _ Hreach) as [_ Hall].
    rewrite Forall_forall in Hall. specialize (Hall v Hv). lia.
Qed.

(** * Sessions of launches *)

Lemma step_Open_components (t : Z) (appType title : string)
      (s : DesktopState) (a : string) :
  In a (map component (windows (step t (Open appType title) s)))
  <-> In a (map component (windows s)) \/ a = appType.
Proof.
  rewrite step_Open.
  destruct (find (fun w => component w =? appType) (windows s)) as [ex|] eqn:E.
  - rewrite (exec_openApp_existing _ _ _ _ _ E), exec_focusWindow.
    cbn [windows]. rewrite map_update_preserves by reflexivity.
    split; [auto|]. intros [H| ->]; [exact H|].
    apply find_some in E. destruct E as [Hin He].
    apply String.eqb_eq in He. rewrite <- He. now apply in_map.
  - rewrite (exec_openApp_new _ _ _ _ E). cbn [windows].
    rewrite map_app, in_app_iff. simpl. intuition congruence.
Qed.

Lemma launches_components (apps : list (Z * (string * string)))
      (s : DesktopState) (a : string) :
  In a (map component (windows (run (launches apps) s)))
  <-> In a (map component (windows s))
      \/ In a (map (fun l => fst (snd l)) apps).
Proof.
  revert s. induction apps as [|[t [a0 ti]] apps IH]; intros s; simpl.
  - tauto.
  - rewrite IH, step_Open_components. intuition auto.
Qed.

(** X8: Launching any list of applications from the initial state leaves one
    window per application type launched: the types of the windows are
    the launched types without repetition, so there are as many windows
    as distinct types. *)
Theorem launches_one_window_per_type (apps : list (Z * (string * string))) :
  let s := run (launches apps) initialState in
  let types := map (fun l => fst (snd l)) apps in
  NoDup (map component (windows s))
  /\ (forall a, In a (map component (windows s)) <-> In a types)
  /\ List.length (windows s) = List.length (nodup string_dec types).
Proof.
  cbv zeta.
  assert (Hnd : NoDup (map component
                         (windows (run (launches apps) initialState)))).
  { apply reachable_one_per_component, reachable_run. constructor. }
  assert (Hel : forall a,
    In a (map component (windows (run (launches apps) initialState)))
    <-> In a (map (fun l => fst (snd l)) apps)).
  { intros a. rewrite launches_components. simpl. tauto. }
  split; [exact Hnd|]. split; [exact Hel|].
  rewrite <- (length_map component). apply Nat.le_antisymm.
  - apply NoDup_incl_length; [exact Hnd|].
    intros a Ha. apply nodup_In. now apply Hel.
  - apply NoDup_incl_length; [apply NoDup_nodup|].
    intros a Ha. apply Hel. now apply nodup_In in Ha.
Qed.

(** Launching applications of pairwise distinct types, none of them open
    yet, appends one window per launch, in order. *)
Lemma launches_distinct_append (apps : list (Z * (string * string)))
      (s : DesktopState) :
  NoDup (map (fun l => fst (snd l)) apps) ->
  (forall a, In a (map (fun l => fst (snd l)) apps) ->
             ~ In a (map component (windows s))) ->
  exists tail,
    windows (run (launches apps) s) = (windows s ++ tail)%list
    /\ List.length tail = List.length apps
    /\ nextZIndex (run (launches apps) s)
       = nextZIndex s + Z.of_nat (List.length apps)
    /\ forall k t a ti, nth_error apps k = Some (t, (a, ti)) ->
         nth_error tail k
         = Some (mkAppWindow (toString t) ti a false false
                   (mkPosition
                      (100 + Z.of_nat (List.length (windows s) + k) * 30)
                      (100 + Z.of_nat (List.length (windows s) + k) * 30))
                   (mkSize 800 600)
                   (nextZIndex s + Z.of_nat k)).
Proof.
  revert s. induction apps as [|[t0 [a0 ti0]] apps IH]; intros s Hnd Hnew.
  - exists []. simpl. rewrite app_nil_r. repeat split; [lia|].
    intros [|k]; discriminate.
  - simpl in Hnd. inversion Hnd as [|? ? Hnotin Hnd']; subst.
    assert (Hfind : find (fun w => component w =? a0) (windows s) = None).
    { apply find_component_absent. intros w Hw Hc.
      apply (Hnew a0); [left; reflexivity|].
      rewrite <- Hc. now apply in_map. }
    change (run (launches ((t0, (a0, ti0)) :: apps)) s)
      with (run (launches apps) (step t0 (Open a0 ti0) s)).
    rewrite step_Open.
    remember (exec (openApp a0 ti0) t0 s) as s1 eqn:Es1.
    rewrite (exec_openApp_new t0 s a0 ti0 Hfind) in Es1.
    assert (Hw1 : windows s1 = (windows s ++
      [mkAppWindow (toString t0) ti0 a0 false false
         (mkPosition (100 + Z.of_nat (List.length (windows s)) * 30)
                     (100 + Z.of_nat (List.length (windows s)) * 30))
         (mkSize 800 600) (nextZIndex s)])%list) by now subst s1.
    assert (Hz1 : nextZIndex s1 = nextZIndex s + 1) by now subst s1.
    clear Es1.
    destruct (IH s1 Hnd') as [tail [Htail [Hlen [Hnz Hnth]]]].
    { intros a Ha Hin. rewrite Hw1 in Hin.
      rewrite map_app, in_app_iff in Hin. simpl in Hin.
      destruct Hin as [Hin|[<-|[]]].
      - apply (Hnew a); [right; exact Ha|exact Hin].
      - contradiction. }
    rewrite Hw1 in Htail, Hnth. rewrite Hz1 in Hnz, Hnth.
    rewrite <- app_assoc in Htail. eexists. split; [exact Htail|].
    split; [simpl; now rewrite Hlen|].
    split; [rewrite Hnz; cbn [List.length]; lia|].
    intros [|k] t a ti Hk; simpl in Hk.
    + injection Hk as -> -> ->. cbn [nth_error app].
      rewrite Nat.add_0_r, Z.add_0_r. reflexivity.
    + cbn [nth_error app]. rewrite (Hnth k t a ti Hk). rewrite length_app.
      cbn [List.length].
      do 2 f_equal; [f_equal; lia | lia].
Qed.

(** X9: Launching [n] applications of pairwise distinct types from the initial
    state gives [n] windows in launch order; the [k]-th (from 0) has the
    clock reading of its launch as id, sits at (100 + 30k, 100 + 30k), is
    800 by 600, neither minimized nor maximized, with zIndex 1000 + k. *)
Theorem launches_distinct_stagger (apps : list (Z * (string * string))) :
  NoDup (map (fun l => fst (snd l)) apps) ->
  let s := run (launches apps) initialState in
  List.length (windows s) = List.length apps
  /\ nextZIndex s = 1000 + Z.of_nat (List.length apps)
  /\ forall k t a ti, nth_error apps k = Some (t, (a, ti)) ->
       nth_error (windows s) k
       = Some (mkAppWindow (toString t) ti a false false
                 (mkPosition (100 + Z.of_nat k * 30) (100 + Z.of_nat k * 30))
                 (mkSize 800 600)
                 (1000 + Z.of_nat k)).
Proof.
  intros Hnd. cbv zeta.
  destruct (launches_distinct_append apps initialState Hnd)
    as [tail [Htail [Hlen [Hnz Hnth]]]]; [intros a _ []|].
  simpl in Htail, Hnz, Hnth. split; [|split].
  - now rewrite Htail.
  - exact Hnz.
  - intros k t a ti Hk. rewrite Htail. exact (Hnth k t a ti Hk).
Qed.

(** X10: In a reachable state the window of an application type is the only
    one of its type, so closing its id and opening the type again does not
    bring the old window back: a new window is created, with the default
    size, the staggered position for the windows then open, and the next
    counter value; the geometry and flags of the closed window are gone. *)
Theorem close_then_open_recreates (s : DesktopState) (w : AppWindow)
        (title' : string) (t1 t2 : Z) :
  reachable s -> In w (windows s) ->
  let s1 := exec (closeWindow (id w)) t1 s in
  exec (openApp (component w) title') t2 s1
  = mkDesktop
      (windows s1 ++
       [mkAppWindow (toString t2) title' (component w) false false
          (mkPosition (100 + Z.of_nat (List.length (windows s1)) * 30)
                      (100 + Z.of_nat (List.length (windows s1)) * 30))
          (mkSize 800 600) (nextZIndex s)])
      (nextZIndex s + 1).
Proof.
  intros Hreach Hw. cbv zeta.
  rewrite exec_openApp_new; [reflexivity|].
  apply find_component_absent. intros v Hv Hc.
  rewrite exec_closeWindow in Hv. cbn [windows] in Hv.
  apply filter_In in Hv. destruct Hv as [Hv Hid].
  apply negb_true_iff, String.eqb_neq in Hid. apply Hid. f_equal.
  apply (NoDup_map_injective component (windows s)); auto.
  now apply reachable_one_per_component.
Qed.

(** * The taskbar after a command *)

Lemma openWindows_keys (s : DesktopState) :
  map TaskbarTsx.wb_key (TaskbarTsx.openWindows (Desktop_Taskbar s))
  = map id (filter (fun w => negb (isMinimized w)) (windows s)).
Proof.
  unfold Desktop_Taskbar, TaskbarTsx.Taskbar; simpl. now rewrite map_map.
Qed.

Lemma quickLaunch_isOpen (s : DesktopState) :
  map TaskbarTsx.ql_isOpen (TaskbarTsx.quickLaunch (Desktop_Taskbar s))
  = map (fun app => existsb (fun w => component w =? TaskbarTsx.app_component app)
                            (windows s))
        TaskbarTsx.quickLaunchApps.
Proof.
  unfold Desktop_Taskbar, TaskbarTsx.Taskbar; simpl. reflexivity.
Qed.

Lemma existsb_map_update (p : AppWindow -> bool) (f : AppWindow -> AppWindow)
      (windowId : string) (ws : list AppWindow) :
  (forall w, p (f w) = p w) ->
  existsb p (map (fun w => if id w =? windowId then f w else w) ws)
  = existsb p ws.
Proof.
  intros Hp. induction ws as [|w ws IH]; simpl; [reflexivity|].
  rewrite IH. destruct (id w =? windowId); now rewrite ?Hp.
Qed.

(** X11: After minimize(id) the open-window area is what it was without the
    buttons of that id, and the quick-launch highlighting is what it
    was: a minimized application still shows as running, but has no
    button of its own. *)
Theorem taskbar_after_minimize (s : DesktopState) (windowId : string)
        (t : Z) :
  let view := Desktop_Taskbar s in
  let view' := Desktop_Taskbar (exec (minimizeWindow windowId) t s) in
  map TaskbarTsx.wb_key (TaskbarTsx.openWindows view')
  = filter (fun k => negb (k =? windowId))
           (map TaskbarTsx.wb_key (TaskbarTsx.openWindows view))
  /\ ~ In windowId (map TaskbarTsx.wb_key (TaskbarTsx.openWindows view'))
  /\ map TaskbarTsx.ql_isOpen (TaskbarTsx.quickLaunch view')
     = map TaskbarTsx.ql_isOpen (TaskbarTsx.quickLaunch view).
Proof.
  cbv zeta.
  assert (Hkeys :
    map TaskbarTsx.wb_key
      (TaskbarTsx.openWindows
         (Desktop_Taskbar (exec (minimizeWindow windowId) t s)))
    = filter (fun k => negb (k =? windowId))
        (map TaskbarTsx.wb_key (TaskbarTsx.openWindows (Desktop_Taskbar s)))).
  { rewrite !openWindows_keys, exec_minimizeWindow. cbn [windows].
    induction (windows s) as [|w ws IH]; [reflexivity|].
    cbn [map filter]. destruct (String.eqb_spec (id w) windowId) as [E|E].
    - cbn [isMinimized with_isMinimized negb]. rewrite IH.
      destruct (isMinimized w); cbn [negb map filter]; [reflexivity|].
      apply String.eqb_eq in E. now rewrite E.
    - destruct (isMinimized w); cbn [negb map filter]; [exact IH|].
      apply String.eqb_neq in E. rewrite E. cbn [negb]. now rewrite IH. }
  split; [exact Hkeys|]. split.
  - rewrite Hkeys. intros Hin. apply filter_In in Hin.
    destruct Hin as [_ Hne]. rewrite String.eqb_refl in Hne. discriminate.
  - rewrite !quickLaunch_isOpen, exec_minimizeWindow. cbn [windows].
    apply map_ext. intros app. now apply existsb_map_update.
Qed.

(** X12: In a reachable state, launching an application that has a window,
    minimized or not, creates nothing and leaves that window with a button
    in the open-window area. *)
Theorem taskbar_after_relaunch (s : DesktopState) (w : AppWindow)
        (title' : string) (t : Z) :
  reachable s -> In w (windows s) ->
  let s' := exec (openApp (component w) title') t s in
  List.length (windows s') = List.length (windows s)
  /\ In (id w)
        (map TaskbarTsx.wb_key (TaskbarTsx.openWindows (Desktop_Taskbar s'))).
Proof.
  intros Hreach Hw. cbv zeta.
  destruct (find_component_present (component w) (windows s))
    as [ex [Hfind [Hex Hc]]]; [exists w; auto|].
  assert (ex = w) as ->.
  { apply (NoDup_map_injective component (windows s)); auto.
    now apply reachable_one_per_component. }
  rewrite (exec_openApp_existing _ _ _ _ _ Hfind), openWindows_keys.
  rewrite exec_focusWindow. cbn [windows]. split; [apply length_map|].
  apply in_map_iff.
  exists (with_isMinimized (with_zIndex w (nextZIndex s)) false).
  split; [reflexivity|]. apply filter_In. split; [|reflexivity].
  apply in_map_iff. exists w. now rewrite String.eqb_refl.
Qed.

(** X13: In a reachable state, closing a window's id removes its button from
    the open-window area, and no quick-launch button for its application
    type stays highlighted. *)
Theorem taskbar_after_close (s : DesktopState) (w : AppWindow) (t : Z) :
  reachable s -> In w (windows s) ->
  let view' := Desktop_Taskbar (exec (closeWindow (id w)) t s) in
  ~ In (id w) (map TaskbarTsx.wb_key (TaskbarTsx.openWindows view'))
  /\ Forall (fun q => TaskbarTsx.ql_key q = component w ->
                      TaskbarTsx.ql_isOpen q = false)
            (TaskbarTsx.quickLaunch view').
Proof.
  intros Hreach Hw. cbv zeta. split.
  - rewrite openWindows_keys, exec_closeWindow. cbn [windows].
    intros Hin. apply in_map_iff in Hin. destruct Hin as [v [Hid Hv]].
    apply filter_In in Hv. destruct Hv as [Hv _].
    apply filter_In in Hv. destruct Hv as [_ Hne].
    rewrite Hid, String.eqb_refl in Hne. discriminate.
  - assert (Hnone : forall a, a = component w ->
      existsb (fun v => component v =? a)
              (windows (exec (closeWindow (id w)) t s)) = false).
    { intros a ->. apply not_true_is_false. intros Hex.
      apply existsb_exists in Hex. destruct Hex as [v [Hv Hc]].
      apply String.eqb_eq in Hc.
      rewrite exec_closeWindow in Hv. cbn [windows] in Hv.
      apply filter_In in Hv. destruct Hv as [Hv Hne].
      apply negb_true_iff, String.eqb_neq in Hne. apply Hne. f_equal.
      apply (NoDup_map_injective component (windows s)); auto.
      now apply reachable_one_per_component. }
    unfold Desktop_Taskbar, TaskbarTsx.Taskbar.
    cbn [TaskbarTsx.quickLaunch TaskbarTsx.windows].
    apply Forall_map. apply Forall_forall. intros app _.
    cbn [TaskbarTsx.ql_key TaskbarTsx.ql_isOpen]. apply Hnone.
Qed.

(** * Icon lookup *)

(** X14: [getAppIcon] gives each of the eight application types its own icon
    and any other type the FileText icon, except a type named like a
    member of [Object.prototype], for which the lookup finds that member
    and no icon is returned. *)
Theorem getAppIcon_lookup (component : string) :
  (forall i, In (component, i) icons ->
             getAppIcon component = IconComponent i)
  /\ (~ In component (map fst icons) ->
      ~ In component Object_prototype_names ->
      getAppIcon component = IconComponent FileText)
  /\ (In component Object_prototype_names ->
      getAppIcon component = ObjectPrototypeMember component).
Proof.
  split; [|split].
  - intros i Hin. simpl in Hin.
    repeat (destruct Hin as [Hin|Hin];
            [injection Hin as <- <-; reflexivity|]).
    contradiction.
  - intros Hown Hproto. unfold getAppIcon.
    assert (Hnone : ownProperty icons component = None).
    { clear Hproto. induction icons as [|[k v] o IH]; [reflexivity|].
      simpl. destruct (String.eqb_spec k component) as [E|E].
      - exfalso. apply Hown. left. exact E.
      - apply IH. intros Hin. apply Hown. right. exact Hin. }
    rewrite Hnone.
    destruct (existsb (fun n => n =? component) Object_prototype_names)
      eqn:E; [|reflexivity].
    exfalso. apply Hproto. apply existsb_exists in E.
    destruct E as [n [Hn He]]. apply String.eqb_eq in He. now subst n.
  - intros Hin. simpl in Hin.
    repeat (destruct Hin as [Hin|Hin]; [subst component; reflexivity|]).
    contradiction.
Qed.

(** * The states the rendered page can reach *)

Lemma quickLaunchApps_in_desktopApps :
  Forall (fun q => exists app, In app DesktopTsx.desktopApps
            /\ DesktopTsx.da_component app = TaskbarTsx.app_component q
            /\ DesktopTsx.da_title app = TaskbarTsx.app_title q)
         TaskbarTsx.quickLaunchApps.
Proof.
  repeat apply Forall_cons; [| | | |apply Forall_nil].
  - exists (DesktopTsx.mkDesktopApp "file-manager" "File Manager" Folder
              "FileManager"). simpl. tauto.
  - exists (DesktopTsx.mkDesktopApp "code-editor" "Code Editor" Code
              "CodeEditor"). simpl. tauto.
  - exists (DesktopTsx.mkDesktopApp "ai-assistant" "AI Assistant" Brain
              "AIAssistant"). simpl. tauto.
  - exists (DesktopTsx.mkDesktopApp "terminal" "Terminal" Terminal
              "Terminal"). simpl. tauto.
Qed.

(** The application types and titles the launchers pass to [openApp]. *)
Lemma launcher_arguments (t : Z) (e : UiEvent) (s : DesktopState) :
  uiStep t e s = s
  \/ exists c, uiStep t e s = step t c s
       /\ match c with
          | Open appType title' =>
              exists app, In app DesktopTsx.desktopApps
                /\ DesktopTsx.da_component app = appType
                /\ DesktopTsx.da_title app = title'
          | _ => True
          end.
Proof.
  assert (Hopen : forall a ti,
    exec (openApp a ti ;; ret tt) t s = step t (Open a ti) s)
    by reflexivity.
  destruct e as [k|k|k|c].
  - unfold uiStep, uiHandler.
    destruct (nth_error DesktopTsx.DesktopIcons k) as [icon|] eqn:E;
      [|left; reflexivity].
    right. apply nth_error_In in E. unfold DesktopTsx.DesktopIcons in E.
    apply in_map_iff in E. destruct E as [[index app] [<- Hin]].
    apply in_combine_r in Hin.
    exists (Open (DesktopTsx.da_component app) (DesktopTsx.da_title app)).
    split; [apply Hopen|]. exists app. auto.
  - unfold uiStep, uiHandler.
    destruct (nth_error _ k) as [button|] eqn:E; [|left; reflexivity].
    right. apply nth_error_In in E.
    unfold Desktop_Taskbar, TaskbarTsx.Taskbar in E.
    cbn [TaskbarTsx.quickLaunch] in E. apply in_map_iff in E.
    destruct E as [q [<- Hq]].
    exists (Open (TaskbarTsx.app_component q) (TaskbarTsx.app_title q)).
    split; [apply Hopen|].
    pose proof quickLaunchApps_in_desktopApps as Hall.
    rewrite Forall_forall in Hall. exact (Hall q Hq).
  - unfold uiStep, uiHandler.
    destruct (nth_error _ k) as [button|] eqn:E; [|left; reflexivity].
    right. apply nth_error_In in E.
    unfold Desktop_Taskbar, TaskbarTsx.Taskbar in E.
    cbn [TaskbarTsx.openWindows] in E. apply in_map_iff in E.
    destruct E as [w [<- _]]. exists (Focus (id w)). split; reflexivity.
  - right. destruct c as [i|i|i|i|i p|i sz].
    + exists (Close i). split; reflexivity.
    + exists (Minimize i). split; reflexivity.
    + exists (Maximize i). split; reflexivity.
    + exists (Focus i). split; reflexivity.
    + exists (Move i p). split; reflexivity.
    + exists (Resize i sz). split; reflexivity.
Qed.

Lemma uiReachable_reachable (s : DesktopState) :
  uiReachable s -> reachable s.
Proof.
  induction 1 as [|t e s _ IH]; [constructor|].
  destruct (launcher_arguments t e s) as [->|[c [-> _]]];
    [exact IH | now constructor].
Qed.

(** The title and type of a window never change once it exists. *)
Lemma step_window_catalog (P : string -> string -> Prop) (t : Z)
      (c : Command) (s : DesktopState) :
  match c with Open a ti => P a ti | _ => True end ->
  Forall (fun w => P (component w) (title w)) (windows s) ->
  Forall (fun w => P (component w) (title w)) (windows (step t c s)).
Proof.
  intros Hc Hall.
  assert (Hfocus : forall i,
    Forall (fun w => P (component w) (title w))
           (windows (exec (focusWindow i) t s))).
  { intros i. rewrite exec_focusWindow. cbn [windows].
    eapply Forall_map_update; [exact Hall| |]; auto. }
  destruct c as [a ti|i|i|i|i|i p|i sz]; simpl.
  - rewrite step_Open.
    destruct (find (fun w => component w =? a) (windows s)) as [ex|] eqn:E.
    + rewrite (exec_openApp_existing _ _ _ _ _ E). apply Hfocus.
    + rewrite (exec_openApp_new _ _ _ _ E). cbn [windows].
      apply Forall_app. split; [exact Hall|]. repeat constructor. exact Hc.
  - apply Forall_forall. intros w Hw. apply filter_In in Hw.
    rewrite Forall_forall in Hall. now apply Hall.
  - eapply Forall_map_update; [exact Hall| |]; auto.
  - eapply Forall_map_update; [exact Hall| |]; auto.
  - apply Hfocus.
  - eapply Forall_map_update; [exact Hall| |]; auto.
  - eapply Forall_map_update; [exact Hall| |]; auto.
Qed.

(** X15: Whatever the user does on the page, every window belongs to one of
    the eight desktop applications: it has that application's type and
    title, the taskbar resolves its icon to the application's desktop
    icon (never the fallback, never a prototype member), and at most
    eight windows are open. *)
Theorem uiReachable_windows_from_catalog (s : DesktopState) :
  uiReachable s ->
  Forall (fun w => exists app, In app DesktopTsx.desktopApps
            /\ component w = DesktopTsx.da_component app
            /\ title w = DesktopTsx.da_title app
            /\ getAppIcon (component w)
               = IconComponent (DesktopTsx.da_icon app))
         (windows s)
  /\ (List.length (windows s) <= 8)%nat.
Proof.
  intros Hui.
  assert (Hcat : Forall (fun w => exists app,
            In app DesktopTsx.desktopApps
            /\ DesktopTsx.da_component app = component w
            /\ DesktopTsx.da_title app = title w) (windows s)).
  { induction Hui as [|t e s _ IH]; [constructor|].
    destruct (launcher_arguments t e s) as [->|[c [-> Hc]]]; [exact IH|].
    apply (step_window_catalog
             (fun a ti => exists app, In app DesktopTsx.desktopApps
                /\ DesktopTsx.da_component app = a
                /\ DesktopTsx.da_title app = ti)); [|exact IH].
    destruct c; auto. }
  split.
  - eapply Forall_impl; [|exact Hcat].
    intros w [app [Hin [Hc Ht]]]. exists app.
    split; [exact Hin|]. split; [auto|]. split; [auto|].
    rewrite <- Hc. clear -Hin. simpl in Hin.
    repeat (destruct Hin as [<-|Hin]; [reflexivity|]). contradiction.
  - rewrite <- (length_map component).
    change 8%nat with
      (List.length (map DesktopTsx.da_component DesktopTsx.desktopApps)).
    apply NoDup_incl_length.
    + apply reachable_one_per_component, uiReachable_reachable, Hui.
    + intros a Ha. apply in_map_iff in Ha. destruct Ha as [w [<- Hw]].
      rewrite Forall_forall in Hcat.
      destruct (Hcat w Hw) as [app [Hin [Hc _]]].
      rewrite <- Hc. now apply in_map.
Qed.

(** * Launching from a user's point of view *)

(** X16: In a reachable state, after openApp for an application type there is
    a window of that type that is not minimized, carries the counter
    value, has no window above it and has a button in the open-window
    area of the taskbar: a launch always leaves the application visible
    on top, whether it was closed, open or minimized before. *)
Theorem openApp_shows_app (s : DesktopState) (appType title' : string)
        (t : Z) :
  reachable s ->
  let s' := exec (openApp appType title') t s in
  exists w, In w (windows s')
    /\ component w = appType
    /\ isMinimized w = false
    /\ zIndex w = nextZIndex s
    /\ (forall v, In v (windows s') -> zIndex v <= zIndex w)
    /\ In (id w)
          (map TaskbarTsx.wb_key
               (TaskbarTsx.openWindows (Desktop_Taskbar s'))).
Proof.
  intros Hreach. cbv zeta.
  destruct (reachable_z_bounded _ Hreach) as [_ Hall].
  rewrite Forall_forall in Hall.
  destruct (find (fun w => component w =? appType) (windows s))
    as [ex|] eqn:E.
  - rewrite (exec_openApp_existing _ _ _ _ _ E).
    apply find_some in E. destruct E as [Hex Hc].
    apply String.eqb_eq in Hc.
    exists (with_isMinimized (with_zIndex ex (nextZIndex s)) false).
    assert (Hin : In (with_isMinimized (with_zIndex ex (nextZIndex s)) false)
                     (windows (exec (focusWindow (id ex)) t s))).
    { rewrite exec_focusWindow. cbn [windows]. apply in_map_iff.
      exists ex. now rewrite String.eqb_refl. }
    split; [exact Hin|]. split; [exact Hc|]. split; [reflexivity|].
    split; [reflexivity|]. split.
    + intros v Hv. cbn [zIndex with_isMinimized with_zIndex].
      destruct (focusWindow_windows _ _ _ _ Hv) as [[_ [Hz _]]|[_ Hold]];
        [lia|]. specialize (Hall v Hold). lia.
    + rewrite openWindows_keys. apply in_map_iff. eexists.
      split; [reflexivity|]. apply filter_In. split; [exact Hin|reflexivity].
  - rewrite (exec_openApp_new _ _ _ _ E).
    eexists. split; [cbn [windows]; apply in_app_iff; right; left; reflexivity|].
    split; [reflexivity|]. split; [reflexivity|]. split; [reflexivity|].
    split.
    + intros v Hv. cbn [windows] in Hv. apply in_app_iff in Hv.
      cbn [zIndex]. destruct Hv as [Hv|[<-|[]]]; [|cbn [zIndex]; lia].
      specialize (Hall v Hv). lia.
    + rewrite openWindows_keys. cbn [windows]. apply in_map_iff. eexists.
      split; [reflexivity|]. apply filter_In.
      split; [apply in_app_iff; right; left; reflexivity|reflexivity].
Qed.

(** * Further concrete instances *)

Lemma demo_terminal_in_state :
  In (mkAppWindow "8" "Terminal" "Terminal" false false
        (mkPosition 130 130) (mkSize 800 600) 1001) (windows demo_state).
Proof. right. left. reflexivity. Defined.

(** Maximizing the minimized Notes window of [demo_state]. *)
Lemma maximizeWindow_effect_witness :
  exists w', nth_error (windows (exec (maximizeWindow "7") 10 demo_state)) 0
             = Some w'
             /\ isMaximized w' = true /\ isMinimized w' = false
             /\ zIndex w' = 1000.
Proof.
  destruct (maximizeWindow_effect demo_state "7" 10) as [_ [_ H]].
  destruct (H 0%nat _ eq_refl) as [w' [Hn [Hsame _]]].
  exists w'. split; [exact Hn|].
  destruct (Hsame eq_refl) as [Hmax [Hmin [Hz _]]].
  split; [exact Hmax|]. split; [exact Hmin|exact Hz].
Defined.

(** Moving the Terminal window of [demo_state] off screen. *)
Lemma updateWindowPosition_stores_request_witness :
  exists w', nth_error (windows (exec (updateWindowPosition "8"
                                         (mkPosition (-500) 9000))
                                      10 demo_state)) 1 = Some w'
             /\ position w' = mkPosition (-500) 9000.
Proof.
  destruct (updateWindowPosition_stores_request demo_state "8"
              (mkPosition (-500) 9000) 10) as [_ [_ H]].
  destruct (H 1%nat _ eq_refl) as [w' [Hn [Hsame _]]].
  exists w'. split; [exact Hn|]. exact (proj2 (Hsame eq_refl)).
Defined.

(** Focusing the Notes window of [demo_state]. *)
Lemma focusWindow_frame_witness :
  exists w', nth_error (windows (exec (focusWindow "7") 10 demo_state)) 0
             = Some w'
             /\ size w' = mkSize 800 600 /\ zIndex w' = 1002.
Proof.
  destruct (focusWindow_frame demo_state "7" 10) as [_ H].
  destruct (H 0%nat _ eq_refl)
    as [w' [Hn [_ [_ [Hsz [_ [_ [_ [Hz _]]]]]]]]].
  exists w'. split; [exact Hn|]. split; [exact Hsz|exact (Hz eq_refl)].
Defined.

(** Closing the Terminal window of [demo_state]. *)
Lemma closeWindow_removes_witness :
  (exists w, In w (windows demo_state) /\ id w = "8")
  /\ (List.length (windows (exec (closeWindow "8") 10 demo_state))
      < List.length (windows demo_state))%nat.
Proof.
  assert (H : exists w, In w (windows demo_state) /\ id w = "8").
  { eexists. split; [exact demo_terminal_in_state|reflexivity]. }
  split; [exact H|].
  exact (proj2 (proj2 (proj2 (closeWindow_removes demo_state "8" 10))) H).
Defined.

(** The Terminal window of [demo_state] after a close, a launch and a
    minimize: it still has zIndex 1001, and it had it in [demo_state]. *)
Lemma zIndex_never_reused_witness :
  In (mkAppWindow "8" "Terminal" "Terminal" true false
        (mkPosition 130 130) (mkSize 800 600) 1001)
     (windows (run [ (10, Close "7"); (12, Open "Browser" "Browser");
                     (13, Minimize "8") ] demo_state))
  /\ 1001 < nextZIndex demo_state
  /\ exists w, In w (windows demo_state) /\ id w = "8"
               /\ component w = "Terminal" /\ zIndex w = 1001.
Proof.
  assert (Hin : In (mkAppWindow "8" "Terminal" "Terminal" true false
                      (mkPosition 130 130) (mkSize 800 600) 1001)
                   (windows (run [ (10, Close "7");
                                   (12, Open "Browser" "Browser");
                                   (13, Minimize "8") ] demo_state)))
    by (left; reflexivity).
  assert (Hlt : 1001 < nextZIndex demo_state) by reflexivity.
  split; [exact Hin|]. split; [exact Hlt|].
  exact (zIndex_never_reused _ demo_state _ Hin Hlt).
Defined.

(** Launching the Browser in [demo_state]. *)
Lemma openApp_new_window_on_top_witness :
  reachable demo_state
  /\ In (mkAppWindow "10" "Browser" "Browser" false false
           (mkPosition 160 160) (mkSize 800 600) 1002)
        (windows (exec (openApp "Browser" "Browser") 10 demo_state))
  /\ Forall (fun v => zIndex v < 1002) (windows demo_state).
Proof.
  assert (Hin : In (mkAppWindow "10" "Browser" "Browser" false false
                      (mkPosition 160 160) (mkSize 800 600) 1002)
                   (windows (exec (openApp "Browser" "Browser") 10
                                  demo_state)))
    by (right; right; left; reflexivity).
  assert (Hnone : forall v, In v (windows demo_state) ->
                            component v <> "Browser")
    by (intros v [<-|[<-|[]]]; discriminate).
  split; [exact demo_state_reachable|]. split; [exact Hin|].
  apply Forall_forall.
  exact (proj2 (proj2 (proj2
    (openApp_new_window_on_top demo_state "Browser" "Browser" 10 _
       demo_state_reachable Hnone Hin eq_refl)))).
Defined.

Lemma demo_launches_distinct :
  NoDup (map (fun l : Z * (string * string) => fst (snd l)) demo_launches).
Proof.
  repeat constructor; simpl; intros H;
    repeat (destruct H as [H|H]; [discriminate|]); exact H.
Defined.

(** The three windows of [demo_launches]. *)
Lemma launches_distinct_stagger_witness :
  NoDup (map (fun l : Z * (string * string) => fst (snd l)) demo_launches)
  /\ nth_error (windows (run (launches demo_launches) initialState)) 2
     = Some (mkAppWindow "9" "Browser" "Browser" false false
               (mkPosition 160 160) (mkSize 800 600) 1002).
Proof.
  split; [exact demo_launches_distinct|].
  exact (proj2 (proj2 (launches_distinct_stagger demo_launches
                         demo_launches_distinct))
           2%nat 9 "Browser" "Browser" eq_refl).
Defined.

(** Closing and relaunching the Terminal of [demo_state]. *)
Lemma close_then_open_recreates_witness :
  reachable demo_state
  /\ exec (openApp "Terminal" "Terminal") 11
          (exec (closeWindow "8") 10 demo_state)
     = mkDesktop
         (windows (exec (closeWindow "8") 10 demo_state) ++
          [mkAppWindow "11" "Terminal" "Terminal" false false
             (mkPosition 130 130) (mkSize 800 600) 1002])
         1003.
Proof.
  split; [exact demo_state_reachable|].
  exact (close_then_open_recreates demo_state _ "Terminal" 10 11
           demo_state_reachable demo_terminal_in_state).
Defined.

Lemma demo_notes_in_state :
  In (mkAppWindow "7" "Notes" "NotesApp" true false
        (mkPosition 100 100) (mkSize 800 600) 1000) (windows demo_state).
Proof. left. reflexivity. Defined.

(** Launching Notes while its window is minimized in [demo_state]. *)
Lemma taskbar_after_relaunch_witness :
  reachable demo_state
  /\ In "7" (map TaskbarTsx.wb_key
               (TaskbarTsx.openWindows
                  (Desktop_Taskbar
                     (exec (openApp "NotesApp" "Notes") 10 demo_state)))).
Proof.
  split; [exact demo_state_reachable|].
  exact (proj2 (taskbar_after_relaunch demo_state _ "Notes" 10
                  demo_state_reachable demo_notes_in_state)).
Defined.

(** Closing the Terminal of [demo_state]. *)
Lemma taskbar_after_close_witness :
  reachable demo_state
  /\ ~ In "8" (map TaskbarTsx.wb_key
                 (TaskbarTsx.openWindows
                    (Desktop_Taskbar (exec (closeWindow "8") 10 demo_state)))).
Proof.
  split; [exact demo_state_reachable|].
  exact (proj1 (taskbar_after_close demo_state _ 10
                  demo_state_reachable demo_terminal_in_state)).
Defined.

(** The icon of an unknown application type. *)
Lemma getAppIcon_lookup_witness :
  ~ In "Paint" (map fst icons)
  /\ ~ In "Paint" Object_prototype_names
  /\ getAppIcon "Paint" = IconComponent FileText.
Proof.
  assert (H1 : ~ In "Paint" (map fst icons)).
  { simpl. intros H.
    repeat (destruct H as [H|H]; [discriminate|]). exact H. }
  assert (H2 : ~ In "Paint" Object_prototype_names).
  { simpl. intros H.
    repeat (destruct H as [H|H]; [discriminate|]). exact H. }
  split; [exact H1|]. split; [exact H2|].
  exact (proj1 (proj2 (getAppIcon_lookup "Paint")) H1 H2).
Defined.

Lemma ui_demo_state_reachable : uiReachable ui_demo_state.
Proof. repeat constructor. Defined.

(** The windows of [ui_demo_state]. *)
Lemma uiReachable_windows_from_catalog_witness :
  uiReachable ui_demo_state
  /\ map component (windows ui_demo_state) = ["NotesApp"; "Terminal"]
  /\ (List.length (windows ui_demo_state) <= 8)%nat.
Proof.
  split; [exact ui_demo_state_reachable|]. split; [reflexivity|].
  exact (proj2 (uiReachable_windows_from_catalog ui_demo_state
                  ui_demo_state_reachable)).
Defined.

(** Launching Notes while its window is minimized in [demo_state]. *)
Lemma openApp_shows_app_witness :
  reachable demo_state
  /\ exists w, In w (windows (exec (openApp "NotesApp" "Notes") 10 demo_state))
       /\ component w = "NotesApp" /\ isMinimized w = false.
Proof.
  split; [exact demo_state_reachable|].
  destruct (openApp_shows_app demo_state "NotesApp" "Notes" 10
              demo_state_reachable) as [w [Hin [Hc [Hmin _]]]].
  exists w. split; [exact Hin|]. split; [exact Hc|exact Hmin].
Defined.

(** * Browser tabs *)

Module BrowserFacts.

Import BrowserTsx.

Lemma activeCount_app (l1 l2 : list BrowserTab) :
  activeCount (l1 ++ l2) = (activeCount l1 + activeCount l2)%nat.
Proof. unfold activeCount. now rewrite filter_app, length_app. Qed.

Lemma activeCount_deactivated (l : list BrowserTab) :
  activeCount
    (map (fun tab => mkBrowserTab (id tab) (url tab) (title tab) false) l)
  = 0%nat.
Proof. induction l as [|t l IH]; [reflexivity|exact IH]. Qed.

Lemma find_deactivated (l : list BrowserTab) :
  find isActive
    (map (fun tab => mkBrowserTab (id tab) (url tab) (title tab) false) l)
  = None.
Proof. induction l as [|t l IH]; [reflexivity|exact IH]. Qed.

Lemma find_app_none {A : Type} (p : A -> bool) (l1 l2 : list A) :
  find p l1 = None -> find p (l1 ++ l2) = find p l2.
Proof.
  induction l1 as [|a l1 IH]; simpl; [reflexivity|].
  destruct (p a); [discriminate|exact IH].
Qed.

Lemma find_app_some {A : Type} (p : A -> bool) (l1 l2 : list A) (a : A) :
  find p l1 = Some a -> find p (l1 ++ l2) = Some a.
Proof.
  induction l1 as [|b l1 IH]; simpl; [discriminate|].
  destruct (p b); [auto|exact IH].
Qed.

Lemma activeCount_zero_find (l : list BrowserTab) :
  activeCount l = 0%nat -> find isActive l = None.
Proof.
  induction l as [|t l IH]; [reflexivity|].
  unfold activeCount. simpl. destruct (isActive t); [discriminate|exact IH].
Qed.

(** X17: After addNewTab exactly one tab is active, the new one, at the end;
    the earlier tabs keep their id, url and title; and the address bar is
    empty, although the new tab's url is about:blank. *)
Theorem addNewTab_activates_new (now : Z) (s : BrowserState) :
  let s' := dispatch (addNewTab now) s in
  activeCount (tabs s') = 1%nat
  /\ activeTab s'
     = Some (mkBrowserTab (toString now) "about:blank" "New Tab" true)
  /\ map (fun t => (id t, url t, title t)) (tabs s')
     = (map (fun t => (id t, url t, title t)) (tabs s)
        ++ [(toString now, "about:blank", "New Tab")])%list
  /\ addressBar s' = "".
Proof.
  cbv zeta. unfold dispatch, addNewTab, activeTab. cbn [tabs addressBar].
  split; [|split; [|split]].
  - now rewrite activeCount_app, activeCount_deactivated.
  - rewrite find_app_none by apply find_deactivated. reflexivity.
  - rewrite map_app, map_map. reflexivity.
  - reflexivity.
Qed.

Lemma switchTab_tabs (tabId : string) (s : BrowserState) :
  tabs (dispatch (switchTab tabId) s)
  = map (fun tab => mkBrowserTab (id tab) (url tab) (title tab)
                                 (id tab =? tabId)) (tabs s).
Proof.
  unfold dispatch, switchTab.
  destruct (find (fun t => id t =? tabId) (tabs s)); reflexivity.
Qed.

Lemma activeCount_switched_absent (tabId : string) (l : list BrowserTab) :
  (forall t, In t l -> id t <> tabId) ->
  activeCount
    (map (fun tab => mkBrowserTab (id tab) (url tab) (title tab)
                                  (id tab =? tabId)) l) = 0%nat.
Proof.
  induction l as [|t l IH]; intros H; [reflexivity|].
  unfold activeCount. simpl.
  destruct (String.eqb_spec (id t) tabId) as [E|E].
  - exfalso. apply (H t); [left; reflexivity|exact E].
  - apply IH. intros t' Ht'. apply H. now right.
Qed.

(** X18: After switchTab(id) a tab is active exactly when its id is the given
    one, and ids, urls and titles are unchanged.  When the ids are
    pairwise distinct and some tab has the id, that tab is the one active
    tab and the address bar shows its url; when no tab has the id, no tab
    is active any more and the address bar is left alone. *)
Theorem switchTab_activates (tabId : string) (s : BrowserState) :
  let s' := dispatch (switchTab tabId) s in
  map (fun t => (id t, url t, title t)) (tabs s')
  = map (fun t => (id t, url t, title t)) (tabs s)
  /\ Forall (fun t => isActive t = true <-> id t = tabId) (tabs s')
  /\ (forall t, NoDup (map id (tabs s)) -> In t (tabs s) -> id t = tabId ->
        activeCount (tabs s') = 1%nat
        /\ activeTab s' = Some (mkBrowserTab (id t) (url t) (title t) true)
        /\ addressBar s' = url t)
  /\ ((forall t, In t (tabs s) -> id t <> tabId) ->
        activeCount (tabs s') = 0%nat
        /\ activeTab s' = None
        /\ addressBar s' = addressBar s).
Proof.
  cbv zeta. split; [|split; [|split]].
  - rewrite switchTab_tabs, map_map. reflexivity.
  - rewrite switchTab_tabs. apply Forall_map. apply Forall_forall.
    intros t _. simpl. apply String.eqb_eq.
  - intros t Hnd Hin Hid.
    destruct (in_split _ _ Hin) as [l1 [l2 Hsplit]].
    assert (Hl1 : forall t', In t' l1 -> id t' <> tabId).
    { intros t' Ht' E. rewrite Hsplit, map_app in Hnd. simpl in Hnd.
      apply NoDup_remove_2 in Hnd. apply Hnd. apply in_or_app. left.
      rewrite Hid, <- E. now apply in_map. }
    assert (Hl2 : forall t', In t' l2 -> id t' <> tabId).
    { intros t' Ht' E. rewrite Hsplit, map_app in Hnd. simpl in Hnd.
      apply NoDup_remove_2 in Hnd. apply Hnd. apply in_or_app. right.
      rewrite Hid, <- E. now apply in_map. }
    assert (Hfind : find (fun t0 => id t0 =? tabId) (tabs s) = Some t).
    { rewrite Hsplit, find_app_none.
      - simpl. apply String.eqb_eq in Hid. now rewrite Hid.
      - destruct (find (fun t0 => id t0 =? tabId) l1) as [t'|] eqn:E;
          [|reflexivity].
        apply find_some in E. destruct E as [Ht' E].
        apply String.eqb_eq in E. exfalso. exact (Hl1 t' Ht' E). }
    split; [|split].
    + rewrite switchTab_tabs, Hsplit, map_app, activeCount_app.
      rewrite (activeCount_switched_absent _ _ Hl1). simpl.
      unfold activeCount at 1. simpl.
      apply String.eqb_eq in Hid. rewrite Hid. simpl.
      f_equal. apply (activeCount_switched_absent _ _ Hl2).
    + unfold activeTab. rewrite switchTab_tabs, Hsplit, map_app.
      rewrite find_app_none.
      * simpl. apply String.eqb_eq in Hid. now rewrite Hid.
      * apply activeCount_zero_find.
        apply (activeCount_switched_absent _ _ Hl1).
    + unfold dispatch, switchTab. now rewrite Hfind.
  - intros Habsent. split; [|split].
    + rewrite switchTab_tabs. now apply activeCount_switched_absent.
    + unfold activeTab. rewrite switchTab_tabs.
      apply activeCount_zero_find. now apply activeCount_switched_absent.
    + unfold dispatch, switchTab.
      destruct (find (fun t => id t =? tabId) (tabs s)) as [t|] eqn:E;
        [|reflexivity].
      apply find_some in E. destruct E as [Ht E].
      apply String.eqb_eq in E. exfalso. exact (Habsent t Ht E).
Qed.

(** X19: closeTab refuses to close the only tab: with one tab open the state
    is left as it is, whatever id is given. *)
Theorem closeTab_last_tab (tabId : string) (s : BrowserState) :
  List.length (tabs s) = 1%nat -> dispatch (closeTab tabId) s = s.
Proof.
  intros Hlen. unfold dispatch, closeTab. now rewrite Hlen.
Qed.

Lemma filter_other_ids (tabId : string) (l : list BrowserTab) :
  (forall t, In t l -> id t <> tabId) ->
  filter (fun tab => negb (id tab =? tabId)) l = l.
Proof.
  intros H. apply filter_all_kept. intros t Ht.
  apply negb_true_iff, String.eqb_neq. now apply H.
Qed.

Lemma find_other_ids (tabId : string) (l : list BrowserTab) :
  (forall t, In t l -> id t <> tabId) ->
  find (fun tab => id tab =? tabId) l = None.
Proof.
  intros H. destruct (find (fun tab => id tab =? tabId) l) as [t|] eqn:E;
    [|reflexivity].
  apply find_some in E. destruct E as [Ht E]. apply String.eqb_eq in E.
  exfalso. exact (H t Ht E).
Qed.

(** The tabs around the one tab that has the id. *)
Lemma split_at_id (tabId : string) (l : list BrowserTab) (t : BrowserTab) :
  NoDup (map id l) -> In t l -> id t = tabId ->
  exists l1 l2, l = (l1 ++ t :: l2)%list
    /\ (forall t', In t' l1 -> id t' <> tabId)
    /\ (forall t', In t' l2 -> id t' <> tabId).
Proof.
  intros Hnd Hin Hid. destruct (in_split _ _ Hin) as [l1 [l2 Hsplit]].
  exists l1, l2. split; [exact Hsplit|].
  rewrite Hsplit, map_app in Hnd. simpl in Hnd.
  apply NoDup_remove_2 in Hnd.
  split; intros t' Ht' E; apply Hnd; apply in_or_app; [left|right];
    rewrite Hid, <- E; now apply in_map.
Qed.

(** What closeTab does when more than one tab is open and ids are
    pairwise distinct. *)
Lemma closeTab_split (tabId : string) (s : BrowserState)
      (l1 l2 : list BrowserTab) (t : BrowserTab) :
  tabs s = (l1 ++ t :: l2)%list -> id t = tabId ->
  (forall t', In t' l1 -> id t' <> tabId) ->
  (forall t', In t' l2 -> id t' <> tabId) ->
  List.length (tabs s) <> 1%nat ->
  dispatch (closeTab tabId) s
  = if isActive t
    then match (l1 ++ l2)%list with
         | first :: rest =>
             mkBrowser
               (mkBrowserTab (id first) (url first) (title first) true :: rest)
               (url first)
         | [] => mkBrowser [] (addressBar s)
         end
    else mkBrowser (l1 ++ l2) (addressBar s).
Proof.
  intros Hsplit Hid Hl1 Hl2 Hlen. unfold dispatch, closeTab.
  apply Nat.eqb_neq in Hlen. rewrite Hlen.
  assert (Hfilter : filter (fun tab => negb (id tab =? tabId)) (tabs s)
                    = (l1 ++ l2)%list).
  { rewrite Hsplit, filter_app. simpl.
    apply String.eqb_eq in Hid. rewrite Hid. simpl.
    now rewrite !filter_other_ids. }
  assert (Hfind : find (fun tab => id tab =? tabId) (tabs s) = Some t).
  { rewrite Hsplit, find_app_none by now apply find_other_ids.
    simpl. apply String.eqb_eq in Hid. now rewrite Hid. }
  rewrite Hfilter, Hfind.
  destruct (isActive t); [|reflexivity].
  destruct (l1 ++ l2)%list; reflexivity.
Qed.

(** X20: With pairwise distinct ids and exactly one active tab, closeTab keeps
    both: afterwards the ids are still distinct, exactly one tab is
    active and so at least one tab is left.  Closing an inactive or
    unknown id leaves the earlier tabs with another id, in order and
    unchanged, and keeps the active tab and the address bar; closing the
    active tab leaves the earlier tabs with another id, in order, with
    the first of them made active and its url in the address bar.
    Unless it was the only tab, no tab with the closed id remains. *)
Theorem closeTab_keeps_one_active (tabId : string) (s : BrowserState) :
  NoDup (map id (tabs s)) ->
  activeCount (tabs s) = 1%nat ->
  let s' := dispatch (closeTab tabId) s in
  NoDup (map id (tabs s'))
  /\ activeCount (tabs s') = 1%nat
  /\ tabs s' <> []
  /\ (List.length (tabs s) <> 1%nat -> ~ In tabId (map id (tabs s')))
  /\ (forall a, activeTab s = Some a -> id a <> tabId ->
        (List.length (tabs s) <> 1%nat ->
         tabs s' = filter (fun tab => negb (id tab =? tabId)) (tabs s))
        /\ activeTab s' = Some a /\ addressBar s' = addressBar s)
  /\ (forall a, activeTab s = Some a -> id a = tabId ->
        List.length (tabs s) <> 1%nat ->
        exists first rest,
          filter (fun tab => negb (id tab =? tabId)) (tabs s) = first :: rest
          /\ tabs s'
             = mkBrowserTab (id first) (url first) (title first) true :: rest
          /\ activeTab s'
             = Some (mkBrowserTab (id first) (url first) (title first) true)
          /\ addressBar s' = url first).
Proof.
  intros Hnd Hone. cbv zeta.
  assert (Hnonempty : forall l, activeCount l = 1%nat -> l <> []).
  { intros l Hl ->. discriminate. }
  destruct (Nat.eq_dec (List.length (tabs s)) 1) as [Hlen|Hlen].
  { assert (Hsame : dispatch (closeTab tabId) s = s)
      by (unfold dispatch, closeTab; now rewrite Hlen).
    rewrite Hsame. repeat split; auto; try contradiction. }
  destruct (find (fun tab => id tab =? tabId) (tabs s)) as [t|] eqn:Efind.
  - apply find_some in Efind. destruct Efind as [Hin Hid].
    apply String.eqb_eq in Hid.
    destruct (split_at_id _ _ _ Hnd Hin Hid) as [l1 [l2 [Hsplit [Hl1 Hl2]]]].
    rewrite (closeTab_split _ _ _ _ _ Hsplit Hid Hl1 Hl2 Hlen).
    assert (Hfilter : filter (fun tab => negb (id tab =? tabId)) (tabs s)
                      = (l1 ++ l2)%list).
    { rewrite Hsplit, filter_app. simpl.
      rewrite (proj2 (String.eqb_eq _ _) Hid). simpl.
      now rewrite !filter_other_ids. }
    assert (Hnd' : NoDup (map id (l1 ++ l2))).
    { rewrite Hsplit, map_app in Hnd. simpl in Hnd.
      apply NoDup_remove_1 in Hnd. now rewrite map_app. }
    assert (Hgone : ~ In tabId (map id (l1 ++ l2))).
    { intros H. apply in_map_iff in H. destruct H as [t' [E Ht']].
      apply in_app_or in Ht'. destruct Ht' as [Ht'|Ht'];
        [exact (Hl1 t' Ht' E) | exact (Hl2 t' Ht' E)]. }
    assert (Hcount : (activeCount l1 + (if isActive t then 1 else 0)
                      + activeCount l2 = 1)%nat).
    { rewrite Hsplit, activeCount_app in Hone.
      change (t :: l2) with ([t] ++ l2)%list in Hone.
      rewrite activeCount_app in Hone. unfold activeCount at 2 in Hone.
      simpl in Hone. destruct (isActive t); simpl in Hone; lia. }
    destruct (isActive t) eqn:Eact.
    + assert (Hzero : activeCount (l1 ++ l2) = 0%nat)
        by (rewrite activeCount_app; lia).
      destruct (l1 ++ l2)%list as [|first rest] eqn:Erest.
      { exfalso. apply Hlen. rewrite Hsplit, length_app. simpl.
        apply app_eq_nil in Erest. destruct Erest as [-> ->]. reflexivity. }
      assert (Hfirst : isActive first = false /\ activeCount rest = 0%nat).
      { unfold activeCount in Hzero. simpl in Hzero.
        destruct (isActive first); [discriminate|]. auto. }
      destruct Hfirst as [Hf Hr].
      cbn [tabs addressBar]. split; [exact Hnd'|]. split.
      { unfold activeCount. simpl. f_equal. exact Hr. }
      split; [discriminate|]. split; [intros _; exact Hgone|]. split.
      * intros a Ha Hne. exfalso. unfold activeTab in Ha.
        rewrite Hsplit in Ha. rewrite find_app_none in Ha.
        -- simpl in Ha. rewrite Eact in Ha. injection Ha as <-.
           contradiction.
        -- apply activeCount_zero_find. lia.
      * intros a _ _ _. exists first, rest.
        split; [exact Hfilter|]. repeat split.
    + cbn [tabs addressBar]. split; [exact Hnd'|]. split.
      { rewrite activeCount_app. lia. }
      split.
      { apply Hnonempty. rewrite activeCount_app. lia. }
      split; [intros _; exact Hgone|]. split.
      * intros a Ha Hne. split; [intros _; now rewrite Hfilter|].
        split; [|reflexivity]. unfold activeTab in *.
        cbn [tabs]. rewrite Hsplit in Ha.
        destruct (find isActive l1) as [a1|] eqn:E1.
        -- rewrite (find_app_some _ _ _ _ E1) in Ha.
           now rewrite (find_app_some _ _ _ _ E1).
        -- rewrite find_app_none in Ha by exact E1. simpl in Ha.
           rewrite Eact in Ha. now rewrite find_app_none by exact E1.
      * intros a Ha Hida _. exfalso. unfold activeTab in Ha.
        apply find_some in Ha. destruct Ha as [Hina Hacta].
        assert (a = t) as ->.
        { rewrite Hsplit in Hina. apply in_app_or in Hina.
          destruct Hina as [H|[H|H]]; [|now symmetry|].
          - exfalso. exact (Hl1 a H Hida).
          - exfalso. exact (Hl2 a H Hida). }
        congruence.
  - assert (Habsent : forall t, In t (tabs s) -> id t <> tabId).
    { intros t Ht E. apply (find_none _ _ Efind) in Ht.
      apply String.eqb_neq in Ht. contradiction. }
    assert (Hsame : dispatch (closeTab tabId) s = s).
    { unfold dispatch, closeTab. apply Nat.eqb_neq in Hlen.
      rewrite Hlen, Efind, (filter_other_ids _ _ Habsent).
      simpl. now destruct s. }
    rewrite Hsame. split; [exact Hnd|]. split; [exact Hone|].
    split; [now apply Hnonempty|]. split.
    { intros _ H. apply in_map_iff in H. destruct H as [t [E Ht]].
      exact (Habsent t Ht E). }
    split.
    { intros a Ha _. split; [|auto].
      intros _. now rewrite (filter_other_ids _ _ Habsent). }
    intros a Ha Hida _. exfalso. unfold activeTab in Ha.
    apply find_some in Ha. destruct Ha as [Hina _].
    exact (Habsent a Hina Hida).
Qed.

(** The two tabs of [two_tabs] have distinct ids and one is active. *)
Lemma two_tabs_distinct : NoDup (map id (tabs two_tabs)).
Proof.
  repeat constructor; simpl; intros H;
    repeat (destruct H as [H|H]; [discriminate|]); exact H.
Defined.

(** Switching back to the first tab of [two_tabs]. *)
Lemma switchTab_activates_witness :
  NoDup (map id (tabs two_tabs))
  /\ activeCount (tabs (dispatch (switchTab "1") two_tabs)) = 1%nat
  /\ addressBar (dispatch (switchTab "1") two_tabs) = "https://lovable.dev".
Proof.
  split; [exact two_tabs_distinct|].
  destruct (proj1 (proj2 (proj2 (switchTab_activates "1" two_tabs)))
              (mkBrowserTab "1" "https://lovable.dev"
                            "Lovable - AI Web Development" false)
              two_tabs_distinct (or_introl eq_refl) eq_refl)
    as [Hcount [_ Hbar]].
  split; [exact Hcount|exact Hbar].
Defined.

(** Closing the only tab of the initial state. *)
Lemma closeTab_last_tab_witness :
  List.length (tabs initialState) = 1%nat
  /\ dispatch (closeTab "1") initialState = initialState.
Proof.
  split; [reflexivity|]. exact (closeTab_last_tab "1" initialState eq_refl).
Defined.

Lemma two_tabs_active :
  activeTab two_tabs
  = Some (mkBrowserTab "42" "about:blank" "New Tab" true).
Proof. reflexivity. Defined.

Lemma two_tabs_not_single : List.length (tabs two_tabs) <> 1%nat.
Proof. discriminate. Defined.

(** Closing the active second tab of [two_tabs]: the first tab, the only
    one left, becomes active and the address bar shows its url. *)
Lemma closeTab_keeps_one_active_witness :
  NoDup (map id (tabs two_tabs))
  /\ activeCount (tabs two_tabs) = 1%nat
  /\ activeCount (tabs (dispatch (closeTab "42") two_tabs)) = 1%nat
  /\ exists first rest,
       filter (fun tab => negb (id tab =? "42")) (tabs two_tabs)
       = first :: rest
       /\ tabs (dispatch (closeTab "42") two_tabs)
          = mkBrowserTab (id first) (url first) (title first) true :: rest
       /\ addressBar (dispatch (closeTab "42") two_tabs) = url first.
Proof.
  split; [exact two_tabs_distinct|]. split; [reflexivity|].
  destruct (closeTab_keeps_one_active "42" two_tabs two_tabs_distinct eq_refl)
    as [_ [Hcount [_ [_ [_ Hactive]]]]].
  split; [exact Hcount|].
  destruct (Hactive _ two_tabs_active eq_refl two_tabs_not_single)
    as [first [rest [Hf [Ht [_ Hbar]]]]].
  exists first, rest. split; [exact Hf|]. split; [exact Ht|exact Hbar].
Defined.

End BrowserFacts.

(** * Terminal history and completion *)

Module TerminalFacts.

Import TerminalTsx.

(** Counting from the newest entry. *)
Lemma at_index_from_end (a : list string) (n : nat) :
  (n < List.length a)%nat ->
  at_index a (Z.of_nat (List.length a) - 1 - Z.of_nat n)
  = nth_error (rev a) n.
Proof.
  intros Hn. unfold at_index.
  destruct (Z.ltb_spec (Z.of_nat (List.length a) - 1 - Z.of_nat n) 0);
    [lia|].
  rewrite nth_error_rev.
  destruct (Nat.ltb_spec n (List.length a)); [|lia].
  f_equal. lia.
Qed.

(** X21: ArrowUp with the index in range keeps it in range and leaves the
    history alone.  At the oldest entry (or with no history) it does
    nothing; otherwise the index grows by one and the input shows the
    entry that many steps back from the newest, which exists: the input
    never becomes undefined. *)
Theorem arrowUp_recalls_older (s : InputState) :
  index_in_range s ->
  let s' := arrowUp s in
  index_in_range s'
  /\ commandHistory s' = commandHistory s
  /\ (historyIndex s = Z.of_nat (List.length (commandHistory s)) - 1 ->
      s' = s)
  /\ (historyIndex s < Z.of_nat (List.length (commandHistory s)) - 1 ->
      historyIndex s' = historyIndex s + 1
      /\ currentCommand s'
         = nth_error (rev (commandHistory s)) (Z.to_nat (historyIndex s'))
      /\ currentCommand s' <> None).
Proof.
  intros [Hlo Hhi]. cbv zeta. unfold arrowUp, index_in_range.
  destruct (Z.ltb_spec (historyIndex s)
              (Z.of_nat (List.length (commandHistory s)) - 1)) as [Hlt|Hge];
    cbn [historyIndex commandHistory currentCommand].
  - split; [lia|]. split; [reflexivity|]. split; [lia|]. intros _.
    assert (Heq : at_index (commandHistory s)
                    (Z.of_nat (List.length (commandHistory s)) - 1
                     - (historyIndex s + 1))
                  = nth_error (rev (commandHistory s))
                      (Z.to_nat (historyIndex s + 1))).
    { rewrite <- at_index_from_end by lia. f_equal. lia. }
    split; [reflexivity|]. split; [exact Heq|].
    rewrite Heq. apply nth_error_Some. rewrite length_rev. lia.
  - split; [lia|]. split; [reflexivity|]. split; [reflexivity|]. lia.
Qed.

(** X22: ArrowDown with the index in range keeps it in range and leaves the
    history alone.  Above index 0 it shows the next newer entry, which
    exists; at index 0 it goes back to the prompt with an empty input;
    at the prompt it does nothing. *)
Theorem arrowDown_recalls_newer (s : InputState) :
  index_in_range s ->
  let s' := arrowDown s in
  index_in_range s'
  /\ commandHistory s' = commandHistory s
  /\ (0 < historyIndex s ->
      historyIndex s' = historyIndex s - 1
      /\ currentCommand s'
         = nth_error (rev (commandHistory s)) (Z.to_nat (historyIndex s'))
      /\ currentCommand s' <> None)
  /\ (historyIndex s = 0 ->
      historyIndex s' = -1 /\ currentCommand s' = Some "")
  /\ (historyIndex s = -1 -> s' = s).
Proof.
  intros [Hlo Hhi]. cbv zeta. unfold arrowDown, index_in_range.
  destruct (Z.ltb_spec 0 (historyIndex s)) as [Hpos|Hnpos];
    cbn [historyIndex commandHistory currentCommand].
  - split; [lia|]. split; [reflexivity|]. split; [|split; lia].
    intros _.
    assert (Heq : at_index (commandHistory s)
                    (Z.of_nat (List.length (commandHistory s)) - 1
                     - (historyIndex s - 1))
                  = nth_error (rev (commandHistory s))
                      (Z.to_nat (historyIndex s - 1))).
    { rewrite <- at_index_from_end by lia. f_equal. lia. }
    split; [reflexivity|]. split; [exact Heq|].
    rewrite Heq. apply nth_error_Some. rewrite length_rev. lia.
  - destruct (Z.eqb_spec (historyIndex s) 0) as [Hz|Hnz];
      cbn [historyIndex commandHistory currentCommand].
    + split; [lia|]. split; [reflexivity|]. split; [lia|].
      split; [auto|lia].
    + split; [lia|]. split; [reflexivity|]. split; [lia|].
      split; [lia|reflexivity].
Qed.

(** X23: ArrowUp followed by ArrowDown, when ArrowUp can move: from a recalled
    entry it comes back to that entry's index and text; from the prompt
    it comes back to the prompt with an empty input, so text typed but
    not run is lost. *)
Theorem arrowUp_arrowDown (s : InputState) :
  index_in_range s ->
  historyIndex s < Z.of_nat (List.length (commandHistory s)) - 1 ->
  (0 <= historyIndex s ->
   arrowDown (arrowUp s)
   = mkInput (nth_error (rev (commandHistory s)) (Z.to_nat (historyIndex s)))
             (commandHistory s) (historyIndex s))
  /\ (historyIndex s = -1 ->
      arrowDown (arrowUp s) = mkInput (Some "") (commandHistory s) (-1)).
Proof.
  intros [Hlo Hhi] Hlt. unfold arrowUp.
  destruct (Z.ltb_spec (historyIndex s)
              (Z.of_nat (List.length (commandHistory s)) - 1)); [|lia].
  unfold arrowDown. cbn [historyIndex commandHistory currentCommand].
  split.
  - intros Hnn.
    destruct (Z.ltb_spec 0 (historyIndex s + 1)); [|lia].
    f_equal; [|lia].
    replace (historyIndex s + 1 - 1) with (Z.of_nat (Z.to_nat (historyIndex s)))
      by lia.
    apply at_index_from_end. lia.
  - intros Hm. rewrite Hm. reflexivity.
Qed.

(** X24: From the prompt, [k] presses of ArrowUp show the [k]-th newest
    command, for every [k] from 1 to the length of the history. *)
Theorem arrowUp_repeated (s : InputState) (k : nat) :
  historyIndex s = -1 ->
  (1 <= k <= List.length (commandHistory s))%nat ->
  Nat.iter k arrowUp s
  = mkInput (nth_error (rev (commandHistory s)) (k - 1))
            (commandHistory s) (Z.of_nat k - 1).
Proof.
  intros Hprompt [Hk1 Hk2]. induction k as [|k IH]; [lia|].
  destruct k as [|k].
  - simpl. unfold arrowUp. rewrite Hprompt.
    destruct (Z.ltb_spec (-1)
                (Z.of_nat (List.length (commandHistory s)) - 1)); [|lia].
    f_equal. apply (at_index_from_end _ 0). lia.
  - change (Nat.iter (S (S k)) arrowUp s)
      with (arrowUp (Nat.iter (S k) arrowUp s)).
    rewrite IH by lia.
    unfold arrowUp at 1. cbn [historyIndex commandHistory].
    destruct (Z.ltb_spec (Z.of_nat (S k) - 1)
                (Z.of_nat (List.length (commandHistory s)) - 1)); [|lia].
    f_equal; [|lia].
    replace (Z.of_nat (S k) - 1 + 1) with (Z.of_nat (S k)) by lia.
    replace (S (S k) - 1)%nat with (S k) by lia.
    apply at_index_from_end. lia.
Qed.

Lemma completion_is_fixed (cmd : string) :
  In cmd commands -> filter (fun c => startsWith c (Some cmd)) commands = [cmd].
Proof.
  intros Hin. simpl in Hin.
  repeat (destruct Hin as [<-|Hin]; [reflexivity|]). contradiction.
Qed.

Lemma commands_distinct : NoDup commands.
Proof.
  repeat constructor; simpl; intros H;
    repeat (destruct H as [H|H]; [discriminate|]); exact H.
Qed.

Lemma only_element {A : Type} (l : list A) (c : A) :
  NoDup l -> In c l -> (forall a, In a l -> a = c) -> l = [c].
Proof.
  intros Hnd Hin Hall. destruct l as [|a l]; [contradiction|].
  assert (a = c) as -> by (apply Hall; left; reflexivity).
  f_equal. destruct l as [|b l]; [reflexivity|].
  exfalso. inversion Hnd as [|? ? Hnotin _]; subst. apply Hnotin.
  rewrite (Hall b (or_intror (or_introl eq_refl))). left. reflexivity.
Qed.

(** X25: Tab leaves the history and its index alone.  When exactly one of
    the eight commands starts with the input, the input becomes that
    command; when none or more than one does, nothing changes; pressing
    Tab again changes nothing more. *)
Theorem tabKey_completes (s : InputState) :
  let s' := tabKey s in
  commandHistory s' = commandHistory s
  /\ historyIndex s' = historyIndex s
  /\ (forall cmd, In cmd commands ->
        startsWith cmd (currentCommand s) = true ->
        (forall other, In other commands ->
           startsWith other (currentCommand s) = true -> other = cmd) ->
        currentCommand s' = Some cmd)
  /\ ((forall cmd, In cmd commands ->
         startsWith cmd (currentCommand s) = true ->
         exists other, In other commands
           /\ startsWith other (currentCommand s) = true /\ other <> cmd) ->
      s' = s)
  /\ (s' = s
      \/ exists cmd, In cmd commands
           /\ currentCommand s' = Some cmd
           /\ startsWith cmd (currentCommand s) = true
           /\ forall other, In other commands ->
                startsWith other (currentCommand s) = true -> other = cmd)
  /\ tabKey s' = s'.
Proof.
  cbv zeta.
  assert (Hmatch : forall c,
    In c (filter (fun cmd => startsWith cmd (currentCommand s)) commands)
    <-> In c commands /\ startsWith c (currentCommand s) = true)
    by (intros c; apply filter_In).
  assert (Hunique : forall cmd, In cmd commands ->
    startsWith cmd (currentCommand s) = true ->
    (forall other, In other commands ->
       startsWith other (currentCommand s) = true -> other = cmd) ->
    filter (fun c => startsWith c (currentCommand s)) commands = [cmd]).
  { intros cmd Hin Hs Hothers. apply only_element.
    - apply NoDup_filter, commands_distinct.
    - apply Hmatch. auto.
    - intros a Ha. apply Hmatch in Ha. destruct Ha as [Ha1 Ha2]. auto. }
  destruct (filter (fun cmd => startsWith cmd (currentCommand s)) commands)
    as [|m [|m' rest]] eqn:E.
  - assert (Hs : tabKey s = s) by (unfold tabKey; now rewrite E).
    rewrite !Hs. repeat split; auto.
    intros cmd Hin Hstarts Hothers.
    discriminate (Hunique cmd Hin Hstarts Hothers).
  - assert (Hs : tabKey s
                 = mkInput (Some m) (commandHistory s) (historyIndex s))
      by (unfold tabKey; now rewrite E).
    assert (Hm : In m commands /\ startsWith m (currentCommand s) = true)
      by (apply Hmatch; left; reflexivity).
    destruct Hm as [Hin Hstarts].
    assert (Hothers : forall other, In other commands ->
              startsWith other (currentCommand s) = true -> other = m).
    { intros other Ho Hso.
      assert (In other [m]) as [<-|[]]; [|reflexivity].
      apply Hmatch. auto. }
    rewrite !Hs. cbn [historyIndex commandHistory currentCommand].
    split; [reflexivity|]. split; [reflexivity|]. split; [|split; [|split]].
    + intros cmd Hc Hcs _. f_equal. symmetry. now apply Hothers.
    + intros Hambiguous. exfalso.
      destruct (Hambiguous m Hin Hstarts) as [other [Ho [Hso Hne]]].
      apply Hne. now apply Hothers.
    + right. exists m. repeat split; auto.
    + unfold tabKey. cbn [currentCommand commandHistory historyIndex].
      now rewrite (completion_is_fixed m Hin).
  - assert (Hs : tabKey s = s) by (unfold tabKey; now rewrite E).
    rewrite !Hs. repeat split; auto.
    intros cmd Hin Hstarts Hothers.
    discriminate (Hunique cmd Hin Hstarts Hothers).
Qed.

Lemma demo_input_in_range : index_in_range demo_input.
Proof. unfold index_in_range. simpl. lia. Defined.

(** ArrowUp at the prompt of [demo_input] recalls ["date"]. *)
Lemma arrowUp_recalls_older_witness :
  index_in_range demo_input
  /\ historyIndex (arrowUp demo_input) = 0
  /\ currentCommand (arrowUp demo_input) <> None.
Proof.
  split; [exact demo_input_in_range|].
  destruct (arrowUp_recalls_older demo_input demo_input_in_range)
    as [_ [_ [_ H]]].
  destruct (H ltac:(simpl; lia)) as [Hidx [_ Hdef]].
  split; [exact Hidx|exact Hdef].
Defined.

Lemma demo_input_up_in_range : index_in_range (arrowUp (arrowUp demo_input)).
Proof. unfold index_in_range. simpl. lia. Defined.

(** ArrowDown after two ArrowUp on [demo_input] comes back to index 0. *)
Lemma arrowDown_recalls_newer_witness :
  index_in_range (arrowUp (arrowUp demo_input))
  /\ historyIndex (arrowDown (arrowUp (arrowUp demo_input))) = 0
  /\ currentCommand (arrowDown (arrowUp (arrowUp demo_input))) <> None.
Proof.
  split; [exact demo_input_up_in_range|].
  destruct (arrowDown_recalls_newer _ demo_input_up_in_range)
    as [_ [_ [H _]]].
  destruct (H ltac:(simpl; lia)) as [Hidx [_ Hdef]].
  split; [exact Hidx|exact Hdef].
Defined.

(** ArrowUp then ArrowDown on [demo_input] loses the typed ["ec"]. *)
Lemma arrowUp_arrowDown_witness :
  index_in_range demo_input
  /\ currentCommand demo_input = Some "ec"
  /\ arrowDown (arrowUp demo_input) = mkInput (Some "") ["ls"; "pwd"; "date"] (-1).
Proof.
  split; [exact demo_input_in_range|]. split; [reflexivity|].
  exact (proj2 (arrowUp_arrowDown demo_input demo_input_in_range
                  ltac:(simpl; lia)) eq_refl).
Defined.

(** Two presses of ArrowUp on [demo_input] recall ["pwd"]. *)
Lemma arrowUp_repeated_witness :
  historyIndex demo_input = -1
  /\ Nat.iter 2 arrowUp demo_input
     = mkInput (Some "pwd") ["ls"; "pwd"; "date"] 1.
Proof.
  split; [reflexivity|].
  exact (arrowUp_repeated demo_input 2 eq_refl
           (conj (le_S _ _ (le_n 1)) (le_S _ _ (le_n 2)))).
Defined.

Lemma slash_completes_only_to_ask (other : string) :
  In other commands -> startsWith other (Some "/") = true -> other = "/ask ".
Proof.
  intros Hin Hs. simpl in Hin.
  repeat (destruct Hin as [<-|Hin]; [try reflexivity; discriminate Hs|]).
  contradiction.
Defined.

(** Tab on the input ["/"] completes it to ["/ask "]. *)
Lemma tabKey_completes_witness :
  In "/ask " commands
  /\ startsWith "/ask " (Some "/") = true
  /\ currentCommand (tabKey (mkInput (Some "/") ["ls"] (-1))) = Some "/ask ".
Proof.
  assert (Hin : In "/ask " commands) by (simpl; tauto).
  split; [exact Hin|]. split; [reflexivity|].
  exact (proj1 (proj2 (proj2 (tabKey_completes
                                (mkInput (Some "/") ["ls"] (-1)))))
           "/ask " Hin eq_refl slash_completes_only_to_ask).
Defined.

End TerminalFacts.

(** * Commands on an id that two windows share *)

(** C1 on the code: in the reachable state where Notes and Terminal share
    an id, focus on that id leaves both windows not minimized but with the
    same zIndex 1002, so the focused window is not strictly above every
    other window. *)
Theorem focus_shared_id_not_strictly_on_top :
  let s := run same_reading_session initialState in
  let s' := exec (focusWindow "1700000000000") 1700000000500 s in
  reachable s
  /\ map (fun w => (id w, component w, zIndex w, isMinimized w)) (windows s')
     = [ ("1700000000000", "NotesApp", 1002, false);
         ("1700000000000", "Terminal", 1002, false) ]
  /\ ~ (forall i j w w',
          nth_error (windows s') i = Some w ->
          nth_error (windows s') j = Some w' ->
          id w = "1700000000000" -> i <> j -> zIndex w' < zIndex w).
Proof.
  cbv zeta. split; [apply reachable_run; constructor|].
  split; [reflexivity|].
  intros H. specialize (H 0%nat 1%nat _ _ eq_refl eq_refl eq_refl).
  specialize (H ltac:(discriminate)). cbn in H. lia.
Qed.

(** C8 on the code: in the same state, minimize on the shared id minimizes
    the Terminal window along with the Notes window, so a window other
    than the minimized one is changed. *)
Theorem minimize_shared_id_minimizes_both :
  let s := run same_reading_session initialState in
  let s' := exec (minimizeWindow "1700000000000") 1700000000500 s in
  reachable s
  /\ map (fun w => (id w, component w, isMinimized w)) (windows s)
     = [ ("1700000000000", "NotesApp", false);
         ("1700000000000", "Terminal", false) ]
  /\ map (fun w => (id w, component w, isMinimized w)) (windows s')
     = [ ("1700000000000", "NotesApp", true);
         ("1700000000000", "Terminal", true) ]
  /\ ~ (forall i j w v,
          nth_error (windows s) i = Some w -> id w = "1700000000000" ->
          j <> i -> nth_error (windows s) j = Some v ->
          nth_error (windows s') j = Some v).
Proof.
  cbv zeta. split; [apply reachable_run; constructor|].
  split; [reflexivity|]. split; [reflexivity|].
  intros H.
  specialize (H 0%nat 1%nat
    (mkAppWindow "1700000000000" "Notes" "NotesApp" false false
       (mkPosition 100 100) (mkSize 800 600) 1000)
    (mkAppWindow "1700000000000" "Terminal" "Terminal" false false
       (mkPosition 130 130) (mkSize 800 600) 1001)
    eq_refl eq_refl ltac:(discriminate) eq_refl).
  discriminate H.
Qed.
